(** * gtk4-toolbar: the air-quality dashboard of [src/main.cpp]

    A shallow embedding of the data model and of the handlers of the
    dashboard: the mock generator [get_mock_data], the live samplers and
    [get_live_data], the periodic [on_live_tick] and the chart renderer
    [on_draw_chart], then the samplers of the Windows branch, the areas set
    up by [on_activate] and what [on_fetch_aqi_clicked] shows; followed by
    the properties of the specification and by further properties of the
    code.

    Conventions.
    - [int] and [unsigned int] are 32 bits wide.  Unsigned arithmetic wraps
      ([uint32]); the conversion of an unsigned value to [int] is the
      two's complement one ([int_of_uint]).  Signed arithmetic is written
      with the operations of [Z] where the values stay far from the limits
      of [int] (lemmas give the bounds where a property relies on them);
      the product of a grid label, [max_val * i], is taken in 32 bits.
    - [double] is an interface, [Double], with two instances: [binary64]
      (the IEEE 754 numbers of the machine, by the primitive floats), on
      which the code is run on concrete inputs and on which the hover hit
      test is proved for every input, from the specification of the
      primitive floats; and [exact] (the rationals, that is [double]
      without rounding), on which the geometry of the tooltip box and of
      the grid and the values of the Windows samplers are proved for every
      input.  The two differ on a division by
      zero (an infinity or a NaN on the machine, 0 on the rationals), so
      that the properties proved on the rationals are stated for series of
      two samples at least, where the renderer divides by
      [size - 1 >= 1]; and they differ where a rounding decides a
      comparison (two samples at one exact distance of the pointer, a point
      on a margin), which is why the selection of the hovered sample is
      stated on [binary64].
    - a [std::vector<int>] is a [list Z], front first. *)

From Stdlib Require Import ZArith QArith Qabs Qround String Ascii List Bool Lia Lqa.
From Stdlib Require Import Floats.PrimFloat Floats.SpecFloat Floats.FloatOps.
From Stdlib Require Import Floats.FloatAxioms.
From Stdlib Require Import Numbers.Cyclic.Int63.Uint63.
From Stdlib Require DecimalString.
Import ListNotations.

Local Open Scope Z_scope.

(** ** Machine integers *)

Module MachineInt.

Definition UINT_MODULUS : Z := 2 ^ 32.
Definition INT_MAX : Z := 2 ^ 31 - 1.

(** Result of an [unsigned int] operation whose mathematical value is [z]. *)
Definition uint32 (z : Z) : Z := z mod UINT_MODULUS.

(** Conversion of an [unsigned int] to [int]. *)
Definition int_of_uint (u : Z) : Z :=
  if u <=? INT_MAX then u else u - UINT_MODULUS.

(** Value of a [char] promoted to [int]: plain [char] is signed on some
    platforms and unsigned on others. *)
Definition char_value (char_signed : bool) (c : ascii) : Z :=
  let b := Z.of_N (N_of_ascii c) in
  if char_signed && (128 <=? b) then b - 256 else b.

End MachineInt.
Import MachineInt.

(** ** The type [double] *)

Class Double (F : Type) : Type := {
  of_int : Z -> F;            (* conversion of an integer to [double] *)
  dadd : F -> F -> F;
  dsub : F -> F -> F;
  dmul : F -> F -> F;
  ddiv : F -> F -> F;
  dabs : F -> F;              (* [fabs] *)
  dlt : F -> F -> bool;       (* [<]; [a > b] is [dlt b a] *)
  trunc : F -> Z              (* the cast [(int)] *)
}.

Declare Scope double_scope.
Delimit Scope double_scope with D.
Infix "+" := dadd : double_scope.
Infix "-" := dsub : double_scope.
Infix "*" := dmul : double_scope.
Infix "/" := ddiv : double_scope.
Infix "<?" := dlt : double_scope.

(** A decimal constant of the source, [n/d] rounded once: [lit 6 10] is the
    constant [0.6]. *)
Definition lit {F} `{Double F} (n d : Z) : F := (of_int n / of_int d)%D.

Module Binary64.

Definition of_int (z : Z) : float :=
  if z <? 0 then PrimFloat.opp (PrimFloat.of_uint63 (Uint63.of_Z (- z)))
  else PrimFloat.of_uint63 (Uint63.of_Z z).

(** Truncation toward zero of a finite number; the cast of a NaN or of an
    infinity is undefined in the source and is 0 here. *)
Definition trunc (f : float) : Z :=
  match Prim2SF f with
  | S754_finite s m e =>
      let mag := if 0 <=? e then Z.shiftl (Zpos m) e
                 else Z.shiftr (Zpos m) (- e) in
      if s then - mag else mag
  | _ => 0
  end.

End Binary64.

#[export] Instance binary64 : Double float := {
  of_int := Binary64.of_int;
  dadd := PrimFloat.add;
  dsub := PrimFloat.sub;
  dmul := PrimFloat.mul;
  ddiv := PrimFloat.div;
  dabs := PrimFloat.abs;
  dlt := PrimFloat.ltb;
  trunc := Binary64.trunc
}.

(** [double] without rounding, the rationals: a reference for the geometry
    of the chart.  It decides a comparison as the machine does only where
    no rounding intervenes. *)
Module Exact.

Definition lt (a b : Q) : bool :=
  match Qcompare a b with Lt => true | _ => false end.

Definition trunc (q : Q) : Z := Z.quot (Qnum q) (Zpos (Qden q)).

End Exact.

#[export] Instance exact : Double Q := {
  of_int := inject_Z;
  dadd := Qplus;
  dsub := Qminus;
  dmul := Qmult;
  ddiv := Qdiv;
  dabs := Qabs;
  dlt := Exact.lt;
  trunc := Exact.trunc
}.

(** ** Data structures *)

Record AirQualityData (F : Type) : Type := mkAirQualityData {
  city : string;
  aqi : Z;
  status : string;
  pm25 : F;
  pm10 : F;
  history : list Z   (* 24-hour history *)
}.
Arguments mkAirQualityData {F}.
Arguments city {F}.
Arguments aqi {F}.
Arguments status {F}.
Arguments pm25 {F}.
Arguments pm10 {F}.
Arguments history {F}.

(** ** Mock data generator *)

(** [for (const char *p = city; *p; p++) hash = hash * 31 + *p;] *)
Fixpoint hash_loop (char_signed : bool) (p : string) (hash : Z) : Z :=
  match p with
  | EmptyString => hash
  | String c rest =>
      if (N_of_ascii c =? 0)%N then hash
      else hash_loop char_signed rest
             (uint32 (hash * 31 + char_value char_signed c))
  end.

(** The lambda [my_rand], on the seed it captures: the output and the new
    seed. *)
Definition my_rand (seed : Z) : Z * Z :=
  let seed' := uint32 (seed * 1103515245 + 12345) in
  (uint32 (seed' / 65536) mod 32768, seed').

(** The five branches of the status chain. *)
Inductive Tier : Type := Good | Satisfactory | Moderate | Poor | VeryBad.

Definition tier_of_aqi (aqi : Z) : Tier :=
  if aqi <=? 50 then Good
  else if aqi <=? 100 then Satisfactory
  else if aqi <=? 200 then Moderate
  else if aqi <=? 300 then Poor
  else VeryBad.

Definition tier_status (t : Tier) : string :=
  match t with
  | Good => "Good 🟢"
  | Satisfactory => "Satisfactory 🟡"
  | Moderate => "Moderate 🟠"
  | Poor => "Poor 🔴"
  | VeryBad => "Very Bad 🔴🔴🔴"
  end.

Definition tier_number (t : Tier) : Z :=
  match t with
  | Good => 1 | Satisfactory => 2 | Moderate => 3 | Poor => 4 | VeryBad => 5
  end.

(** [int fluctuation = (my_rand() % 41) - 20;]: the subtraction is an
    unsigned one, converted to [int]. *)
Definition fluctuation_of (r : Z) : Z := int_of_uint (uint32 (r mod 41 - 20)).

(** The loop [for (int i = 0; i < 24; i++)], [n] iterations left. *)
Fixpoint history_loop (n : nat) (seed current : Z) (hist : list Z) : list Z :=
  match n with
  | O => hist
  | S n' =>
      let '(r, seed') := my_rand seed in
      let fluctuation := fluctuation_of r in
      let val := current + fluctuation in
      let val := if val <? 0 then 0 else val in
      history_loop n' seed' val (val :: hist)
  end.

Section Generator.

Context {F : Type} `{Double F}.

(** Whether plain [char] is signed on the platform. *)
Variable char_signed : bool.

Definition get_mock_data (city : string) : AirQualityData F :=
  let hash := hash_loop char_signed city 0 in
  let seed := hash in
  let aqi := int_of_uint (uint32 (hash mod 300 + 50)) in
  {| city := city;
     aqi := aqi;
     status := tier_status (tier_of_aqi aqi);
     pm25 := (of_int aqi * lit 6 10)%D;
     pm10 := (of_int aqi * lit 12 10)%D;
     history := history_loop 24 seed aqi [] |}.

End Generator.

(** ** Live data state and helpers *)

(** The platform's samplers ([#ifdef _WIN32] picks one set or the other),
    over the state [Env] of the platform they read and change. *)
Record Platform (F Env : Type) : Type := mkPlatform {
  GetCPULoad : Env -> F * Env;
  GetMemoryUsage : Env -> F * Env;
  GetNetworkUsage : Env -> F * Env
}.
Arguments mkPlatform {F Env}.
Arguments GetCPULoad {F Env}.
Arguments GetMemoryUsage {F Env}.
Arguments GetNetworkUsage {F Env}.

(** The samplers of the [#else] branch, over the state of the C library's
    [rand]. *)
Module Portable.
Section Portable.

Context {F : Type} `{Double F}.
Variable RandState : Type.
Variable rand : RandState -> Z * RandState.

Definition GetCPULoad (e : RandState) : F * RandState :=
  let '(r, e') := rand e in (of_int (Z.rem r 100), e').

Definition GetMemoryUsage (e : RandState) : F * RandState :=
  (of_int 50, e).

Definition GetNetworkUsage (e : RandState) : F * RandState :=
  let '(r, e') := rand e in (of_int (Z.rem r 100), e').

Definition platform : Platform F RandState :=
  mkPlatform GetCPULoad GetMemoryUsage GetNetworkUsage.

End Portable.

(** The sample implementation of [rand] of the C standard, with
    [RAND_MAX = 32767]. *)
Definition iso_rand (next : Z) : Z * Z :=
  let next' := uint32 (next * 1103515245 + 12345) in
  (uint32 (next' / 65536) mod 32768, next').

End Portable.

(** [strstr(haystack, needle) != NULL] *)
Fixpoint strstr (haystack needle : string) : bool :=
  String.prefix needle haystack ||
  match haystack with
  | EmptyString => false
  | String _ rest => strstr rest needle
  end.

Section Live.

Context {F : Type} `{Double F}.

(** The globals of the program.  [current_aqi_data] starts zero-initialised
    (null strings are empty strings here). *)
Record Globals : Type := mkGlobals {
  current_aqi_data : AirQualityData F;
  history_cpu : list Z;
  history_mem : list Z;
  history_net : list Z;
  live_tick : Z
}.

Definition initial_globals : Globals :=
  {| current_aqi_data :=
       {| city := ""; aqi := 0; status := "";
          pm25 := of_int 0; pm10 := of_int 0; history := [] |};
     history_cpu := repeat 0 24;
     history_mem := repeat 0 24;
     history_net := repeat 0 24;
     live_tick := 0 |}.

(** [h.empty() ? 0 : h.back()] *)
Definition back_or_zero (h : list Z) : Z :=
  match h with [] => 0 | _ => last h 0 end.

Definition get_live_data (g : Globals) (type : string) : AirQualityData F :=
  let h :=
    if strstr type "CPU" then history_cpu g
    else if strstr type "Mem" then history_mem g
    else history_net g in
  let aqi := back_or_zero h in
  {| city := type;
     aqi := aqi;
     status := "Live";
     pm25 := (of_int aqi * lit 5 10)%D;
     pm10 := (of_int aqi * lit 11 10)%D;
     history := h |}.

(** [if (h.size() >= 24) h.erase(h.begin()); h.push_back(v);] *)
Definition push_sample (h : list Z) (v : Z) : list Z :=
  (if (24 <=? length h)%nat then tl h else h) ++ [v].

Variable Env : Type.
Variable platform : Platform F Env.

(** The builder, as far as the handlers use it: whether an object of that
    name exists. *)
Definition Builder : Type := string -> bool.

(** [gtk_widget_queue_draw] on every object of [ids] the builder has. *)
Definition queue_draws (builder : Builder) (ids : list string) : list string :=
  filter builder ids.

Definition live_chart_ids : list string :=
  ["chart_live_cpu"; "chart_live_mem"; "chart_live_net"]%string.

(** One call of the timer's handler: the new globals and platform state, the
    surfaces whose redraw is requested, and the value returned (TRUE). *)
Definition on_live_tick (builder : Builder) (g : Globals) (e : Env)
  : Globals * Env * list string * bool :=
  let '(cpu_load, e1) := GetCPULoad platform e in
  let cpu := trunc cpu_load in
  let '(mem_usage, e2) := GetMemoryUsage platform e1 in
  let mem := trunc mem_usage in
  let '(net_usage, e3) := GetNetworkUsage platform e2 in
  let net := trunc net_usage in
  ({| current_aqi_data := current_aqi_data g;
      history_cpu := push_sample (history_cpu g) cpu;
      history_mem := push_sample (history_mem g) mem;
      history_net := push_sample (history_net g) net;
      live_tick := live_tick g + 1 |},
   e3,
   queue_draws builder live_chart_ids,
   true).

(** [n] ticks of the timer. *)
Fixpoint run_ticks (builder : Builder) (n : nat) (g : Globals) (e : Env)
  : Globals * Env :=
  match n with
  | O => (g, e)
  | S n' =>
      let '(g', e', _, _) := on_live_tick builder g e in
      run_ticks builder n' g' e'
  end.

(** The samples the three series receive at a tick from [e]. *)
Definition tick_samples (e : Env) : Z * Z * Z :=
  let '(cpu_load, e1) := GetCPULoad platform e in
  let '(mem_usage, e2) := GetMemoryUsage platform e1 in
  let '(net_usage, e3) := GetNetworkUsage platform e2 in
  (trunc cpu_load, trunc mem_usage, trunc net_usage).

End Live.

Arguments Globals F : clear implicits.

(** ** Interaction callbacks *)

(** The data attached to a drawing area with [g_object_set_data]; a key
    never set reads as NULL: [None], [false] or 0. *)
Record Widget : Type := mkWidget {
  city_name : option string;
  is_live : bool;
  live_type : option string;
  is_hovering : bool;
  hover_x : Z
}.

Definition on_chart_motion {F} `{Double F} (widget : Widget) (x y : F)
  : Widget :=
  {| city_name := city_name widget;
     is_live := is_live widget;
     live_type := live_type widget;
     is_hovering := true;
     hover_x := trunc x |}.

Definition on_chart_leave (widget : Widget) : Widget :=
  {| city_name := city_name widget;
     is_live := is_live widget;
     live_type := live_type widget;
     is_hovering := false;
     hover_x := hover_x widget |}.

(** [(int)(intptr_t)g_object_get_data(area, "hover_x")] *)
Definition hover_mouse_x (area : Widget) : Z :=
  int_of_uint (uint32 (hover_x area)).

(** ** Drawing callback *)

(** The calls on the cairo context, in the order they are made. *)
Inductive cairo_op (F : Type) : Type :=
| cairo_set_source_rgb (r g b : F)
| cairo_set_source_rgba (r g b a : F)
| cairo_paint
| cairo_set_line_width (w : F)
| cairo_select_font_face (family : string) (bold : bool)
| cairo_set_font_size (size : Z)
| cairo_move_to (x y : F)
| cairo_line_to (x y : F)
| cairo_stroke
| cairo_stroke_preserve
| cairo_close_path
| cairo_pattern_create_linear (x0 y0 x1 y1 : F)
| cairo_pattern_add_color_stop_rgba (offset r g b a : F)
| cairo_set_source_pattern
| cairo_fill
| cairo_fill_preserve
| cairo_pattern_destroy
| cairo_set_dash (dashes : list F) (offset : Z)
| cairo_arc (xc yc radius angle1 angle2 : F)
| cairo_rectangle (x y w h : F)
| cairo_show_text (text : string).

Arguments cairo_set_source_rgb {F}.
Arguments cairo_set_source_rgba {F}.
Arguments cairo_paint {F}.
Arguments cairo_set_line_width {F}.
Arguments cairo_select_font_face {F}.
Arguments cairo_set_font_size {F}.
Arguments cairo_move_to {F}.
Arguments cairo_line_to {F}.
Arguments cairo_stroke {F}.
Arguments cairo_stroke_preserve {F}.
Arguments cairo_close_path {F}.
Arguments cairo_pattern_create_linear {F}.
Arguments cairo_pattern_add_color_stop_rgba {F}.
Arguments cairo_set_source_pattern {F}.
Arguments cairo_fill {F}.
Arguments cairo_fill_preserve {F}.
Arguments cairo_pattern_destroy {F}.
Arguments cairo_set_dash {F}.
Arguments cairo_arc {F}.
Arguments cairo_rectangle {F}.
Arguments cairo_show_text {F}.

(** [snprintf(buf, n, "%d", z)] for a buffer that holds the digits. *)
Definition format_int (z : Z) : string :=
  DecimalString.NilZero.string_of_int (Z.to_int z).

Section Chart.

Context {F : Type} `{Double F}.

Variable char_signed : bool.

(** [cairo_text_extents]: the width and the height of a text in the Sans
    face, bold or not, at a font size. *)
Variable cairo_text_extents : bool -> Z -> string -> F * F.

Local Open Scope double_scope.

Definition margin_x : F := of_int 40.
Definition margin_y : F := of_int 20.

Definition graph_w (width : Z) : F := of_int width - margin_x - of_int 20.
Definition graph_h (height : Z) : F := of_int height - of_int 2 * margin_y.

(** The series the area shows; [None] is the early [return] of the branch
    of the selected city. *)
Definition select_data (g : Globals F) (area : Widget)
  : option (AirQualityData F) :=
  if is_live area then
    Some (get_live_data g
            (match live_type area with Some t => t | None => "Unknown"%string end))
  else
    match city_name area with
    | Some c => Some (get_mock_data char_signed c)
    | None =>
        match history (current_aqi_data g) with
        | [] => None
        | _ => Some (current_aqi_data g)
        end
    end.

(** Maximum of the samples for scaling, at least 100. *)
Definition scale_max (hist : list Z) : Z :=
  let max_val := fold_left (fun m val => if (m <? val)%Z then val else m) hist 0%Z in
  if (max_val <? 100)%Z then 100%Z else max_val.

(** [max_val * i / 4] of the grid labels, in [int]: the product is taken
    in 32 bits before the division, and wraps for [max_val] above
    [INT_MAX / 4] (an overflow the language leaves undefined, two's
    complement on the machine). *)
Definition grid_label_value (max_val i : Z) : Z :=
  Z.quot (int_of_uint (uint32 (max_val * i))) 4.

Definition grid_line (width height max_val i : Z) : list (cairo_op F) :=
  let y := margin_y + graph_h height - (of_int i * graph_h height / of_int 4) in
  let label := format_int (grid_label_value max_val i) in
  let '(ext_width, ext_height) := cairo_text_extents false 10 label in
  [ cairo_set_source_rgba (lit 8 10) (lit 8 10) (lit 8 10) (of_int 1);
    cairo_move_to margin_x y;
    cairo_line_to (margin_x + graph_w width) y;
    cairo_stroke;
    cairo_set_source_rgb (lit 4 10) (lit 4 10) (lit 4 10);
    cairo_move_to (margin_x - ext_width - of_int 5)
                  (y + ext_height / of_int 2 - of_int 2);
    cairo_show_text label ].

(** [graph_w / (history.size() - 1)], for a series that is not empty. *)
Definition step_divisor (hist : list Z) : Z := (Z.of_nat (length hist) - 1)%Z.

Definition step_of (width : Z) (hist : list Z) : F :=
  graph_w width / of_int (step_divisor hist).

Definition point_x (step_x : F) (i : Z) : F := margin_x + of_int i * step_x.

Definition point_y (height max_val val : Z) : F :=
  margin_y + graph_h height - (of_int val / of_int max_val * graph_h height).

(** The path of the line, from sample [i] on. *)
Fixpoint line_path (height max_val : Z) (step_x : F) (i : Z) (hist : list Z)
  : list (cairo_op F) :=
  match hist with
  | [] => []
  | val :: rest =>
      let x := point_x step_x i in
      let y := point_y height max_val val in
      (if (i =? 0)%Z then cairo_move_to x y else cairo_line_to x y)
        :: line_path height max_val step_x (i + 1) rest
  end.

Definition fill_gradient (width height : Z) : list (cairo_op F) :=
  [ cairo_line_to (margin_x + graph_w width) (margin_y + graph_h height);
    cairo_line_to margin_x (margin_y + graph_h height);
    cairo_close_path;
    cairo_pattern_create_linear (of_int 0) margin_y (of_int 0)
                                (margin_y + graph_h height);
    cairo_pattern_add_color_stop_rgba (of_int 0) (lit 2 10) (lit 6 10)
                                      (of_int 1) (lit 4 10);
    cairo_pattern_add_color_stop_rgba (of_int 1) (lit 2 10) (lit 6 10)
                                      (of_int 1) (of_int 0);
    cairo_set_source_pattern;
    cairo_fill;
    cairo_pattern_destroy ].

Definition type_has (type : option string) (needle : string) : bool :=
  match type with Some t => strstr t needle | None => false end.

(** The label of the current value of a live chart; the source has the
    block twice, with two unit strings for the network. *)
Definition value_label (width : Z) (area : Widget) (hist : list Z)
    (network_unit : string) : list (cairo_op F) :=
  if is_live area && negb (match hist with [] => true | _ => false end) then
    let current_val := last hist 0%Z in
    let type := live_type area in
    let label_text :=
      if type_has type "CPU" || type_has type "Memory" then
        (format_int current_val ++ "%")%string
      else if type_has type "Network" then
        (format_int current_val ++ network_unit)%string
      else format_int current_val in
    let '(ext_width, ext_height) := cairo_text_extents true 24 label_text in
    let x := of_int width - margin_x - ext_width in
    let y := margin_y + ext_height in
    [ cairo_select_font_face "Sans" true;
      cairo_set_font_size 24;
      cairo_set_source_rgba (lit 1 10) (lit 1 10) (lit 1 10) (lit 8 10);
      cairo_move_to x y;
      cairo_show_text label_text ]
  else [].

(** The scan for the closest sample, at sample [i] with [n] samples left:
    the index found and its distance. *)
Fixpoint closest_from (n : nat) (i : Z) (step_x : F) (mouse_x : Z)
    (index : Z) (min_dist : F) : Z * F :=
  match n with
  | O => (index, min_dist)
  | S n' =>
      let x := point_x step_x i in
      let dist := dabs (x - of_int mouse_x) in
      if dist <? min_dist
      then closest_from n' (i + 1)%Z step_x mouse_x i dist
      else closest_from n' (i + 1)%Z step_x mouse_x index min_dist
  end.

Definition closest_index (size : nat) (step_x : F) (mouse_x : Z) : Z * F :=
  closest_from size 0%Z step_x mouse_x (-1)%Z (of_int 9999).

(** The snap tolerance: whether a point counts as hovered. *)
Definition snaps (step_x : F) (found : Z * F) : bool :=
  (0 <=? fst found)%Z && (snd found <? step_x / lit 15 10).

(** The corner of the tooltip box of the marker at [(x, y)]. *)
Definition tooltip_box (width : Z) (x y box_w box_h : F) : F * F :=
  let box_x := x + of_int 10 in
  let box_y := y - of_int 10 - box_h in
  let box_x := if of_int (width - 20) <? box_x + box_w
               then x - of_int 10 - box_w else box_x in
  let box_y := if box_y <? margin_y then y + of_int 10 else box_y in
  (box_x, box_y).

Definition tooltip_unit (area : Widget) : string :=
  if is_live area then
    if type_has (live_type area) "Network" then " Mbps"
    else if type_has (live_type area) "CPU" || type_has (live_type area) "Memory"
         then "%" else ""
  else "".

Definition overlay (width height max_val : Z) (step_x : F) (area : Widget)
    (hist : list Z) : list (cairo_op F) :=
  if is_hovering area then
    let mouse_x := hover_mouse_x area in
    let found := closest_index (length hist) step_x mouse_x in
    if snaps step_x found then
      let index := fst found in
      let val := nth (Z.to_nat index) hist 0%Z in
      let x := point_x step_x index in
      let y := point_y height max_val val in
      let tooltip := (format_int val ++ tooltip_unit area)%string in
      let '(ext_width, ext_height) := cairo_text_extents false 10 tooltip in
      let box_w := ext_width + of_int 10 in
      let box_h := ext_height + of_int 10 in
      let '(box_x, box_y) := tooltip_box width x y box_w box_h in
      [ cairo_set_source_rgba (lit 5 10) (lit 5 10) (lit 5 10) (lit 8 10);
        cairo_set_line_width (of_int 1);
        cairo_set_dash [of_int 4] 0;
        cairo_move_to x margin_y;
        cairo_line_to x (margin_y + graph_h height);
        cairo_stroke;
        cairo_set_dash [] 0;
        cairo_set_source_rgb (of_int 1) (of_int 1) (of_int 1);
        cairo_arc x y (of_int 5) (of_int 0) (of_int 2 * lit 314159 100000);
        cairo_fill_preserve;
        cairo_set_source_rgb (lit 2 10) (lit 6 10) (of_int 1);
        cairo_set_line_width (of_int 2);
        cairo_stroke;
        cairo_select_font_face "Sans" false;
        cairo_set_font_size 10;
        cairo_set_source_rgba (lit 2 10) (lit 2 10) (lit 2 10) (lit 9 10);
        cairo_rectangle box_x box_y box_w box_h;
        cairo_fill;
        cairo_set_source_rgb (of_int 1) (of_int 1) (of_int 1);
        cairo_move_to (box_x + of_int 5) (box_y + box_h - of_int 5);
        cairo_show_text tooltip ]
    else []
  else [].

(** The chart of a series, once the series is known. *)
Definition draw_series (width height : Z) (area : Widget) (hist : list Z)
  : list (cairo_op F) :=
  match hist with
  | [] => []
  | _ =>
      let max_val := scale_max hist in
      let step_x := step_of width hist in
      [ cairo_set_source_rgb (lit 95 100) (lit 95 100) (lit 95 100);
        cairo_paint;
        cairo_set_line_width (of_int 1);
        cairo_select_font_face "Sans" false;
        cairo_set_font_size 10 ]
      ++ flat_map (grid_line width height max_val) [0; 1; 2; 3; 4]%Z
      ++ [ cairo_set_source_rgb (lit 2 10) (lit 6 10) (of_int 1);
           cairo_set_line_width (of_int 3) ]
      ++ line_path height max_val step_x 0 hist
      ++ [ cairo_stroke_preserve ]
      ++ fill_gradient width height
      ++ value_label width area hist " MB/s"
      ++ value_label width area hist " Mbps"
      ++ overlay width height max_val step_x area hist
  end.

(** The samples of the series the area shows; none when the handler
    returns before it has a series. *)
Definition shown_series (g : Globals F) (area : Widget) : list Z :=
  match select_data g area with
  | None => []
  | Some data_to_draw => history data_to_draw
  end.

Definition on_draw_chart (g : Globals F) (area : Widget) (width height : Z)
  : list (cairo_op F) :=
  match select_data g area with
  | None => []
  | Some data_to_draw => draw_series width height area (history data_to_draw)
  end.

End Chart.

(** ** Callbacks *)

Section Callbacks.

Context {F : Type} `{Double F}.
Variable char_signed : bool.

(** The click on the fetch button, [selected] being the string of the
    selected item of the dropdown: the globals after it and the surfaces
    whose redraw is requested.  The texts and style classes it sets on the
    labels are left to the toolkit. *)
Definition on_fetch_aqi_clicked (builder : Builder) (selected : string)
    (g : Globals F) : Globals F * list string :=
  if negb (builder "city_dropdown"%string) || negb (builder "aqi_result_box"%string)
  then (g, [])
  else
    ({| current_aqi_data := get_mock_data char_signed selected;
        history_cpu := history_cpu g;
        history_mem := history_mem g;
        history_net := history_net g;
        live_tick := live_tick g |},
     queue_draws builder ["chart_area_current"%string]).

(** What holds of the globals all along: the live series hold 24 samples,
    the selected city has none yet or 24. *)
Definition sizes_ok (g : Globals F) : Prop :=
  length (history_cpu g) = 24%nat /\
  length (history_mem g) = 24%nat /\
  length (history_net g) = 24%nat /\
  (history (current_aqi_data g) = [] \/
   length (history (current_aqi_data g)) = 24%nat).

Variable Env : Type.
Variable platform : Platform F Env.

(** The globals the program can be in: the timer and the button are the
    only handlers that write them. *)
Inductive reachable : Globals F -> Prop :=
| reach_start : reachable initial_globals
| reach_tick g e builder :
    reachable g ->
    reachable (fst (fst (fst (on_live_tick Env platform builder g e))))
| reach_fetch g builder selected :
    reachable g ->
    reachable (fst (on_fetch_aqi_clicked builder selected g)).

End Callbacks.

(** ** The wording of the specification, for comparison with the code *)

Module Spec.

(** The bytes of a C string: up to the terminating NUL. *)
Fixpoint c_chars (s : string) : list ascii :=
  match s with
  | EmptyString => []
  | String c rest => if (N_of_ascii c =? 0)%N then [] else c :: c_chars rest
  end.

(** "an unsigned hash by iterating characters with hash = hash*31 + char" *)
Definition hash (char_signed : bool) (name : string) : Z :=
  fold_left (fun h c => (h * 31 + char_value char_signed c) mod 2 ^ 32)
            (c_chars name) 0.

(** "seed = seed*1103515245 + 12345, output = (seed >> 16) mod 32768":
    the first [n] outputs. *)
Fixpoint lcg_outputs (n : nat) (seed : Z) : list Z :=
  match n with
  | O => []
  | S n' =>
      let seed' := (seed * 1103515245 + 12345) mod 2 ^ 32 in
      (Z.shiftr seed' 16 mod 32768) :: lcg_outputs n' seed'
  end.

(** "derived from the LCG output mod 41, minus 20" *)
Definition fluctuations (n : nat) (seed : Z) : list Z :=
  map (fun out => out mod 41 - 20) (lcg_outputs n seed).

(** "each step adds a fluctuation to the previous value, clamped to >= 0":
    the values walked from [previous], in the order they are produced. *)
Fixpoint walk (previous : Z) (fluct : list Z) : list Z :=
  match fluct with
  | [] => []
  | f :: rest => let v := Z.max 0 (previous + f) in v :: walk v rest
  end.

(** "the new sample is inserted at the front of the sequence" *)
Definition insert_each_at_front (samples : list Z) : list Z :=
  fold_left (fun acc v => v :: acc) samples [].

(** "length <= capacity", for the three live series. *)
Definition within_capacity {F} (g : Globals F) : Prop :=
  (length (history_cpu g) <= 24 /\ length (history_mem g) <= 24 /\
   length (history_net g) <= 24)%nat.

(** "appending one sample drops exactly the oldest and preserves relative
    order of the rest": from [h] at capacity to [h'] by the sample [v]. *)
Definition fifo_evicts (h : list Z) (v : Z) (h' : list Z) : Prop :=
  length h = 24%nat ->
  exists oldest rest,
    h = oldest :: rest /\ h' = rest ++ [v] /\ length h' = 24%nat.

(** "absent": the summary fields hold nothing, as in the zero-initialised
    record (a null status, readings never computed). *)
Definition summary_absent {F} `{Double F} (d : AirQualityData F) : Prop :=
  status d = ""%string /\ pm25 d = of_int 0 /\ pm10 d = of_int 0.

(** The distance of the pointer to the position of sample [i]. *)
Definition distance {F} `{Double F} (step_x : F) (mouse_x i : Z) : F :=
  dabs (point_x step_x i - of_int mouse_x)%D.

End Spec.

(** ** The samplers of the Windows branch *)

(** The functions under [#ifdef _WIN32].  What the system calls return is an
    argument; the [static] locals are a state passed in and out. *)
Module Windows.

Record FILETIME : Type := mkFILETIME {
  dwLowDateTime : Z;
  dwHighDateTime : Z
}.

(** Result of an [unsigned long long] operation of mathematical value [z]. *)
Definition uint64 (z : Z) : Z := z mod 2 ^ 64.

Definition FileTimeToInt64 (ft : FILETIME) : Z :=
  Z.lor (uint64 (Z.shiftl (dwHighDateTime ft) 32)) (dwLowDateTime ft).

Record CpuStatics : Type := mkCpuStatics {
  preIdleTime : FILETIME;
  preKernelTime : FILETIME;
  preUserTime : FILETIME
}.

Definition zero_time : FILETIME := mkFILETIME 0 0.
Definition initial_cpu_statics : CpuStatics :=
  mkCpuStatics zero_time zero_time zero_time.

Record MIB_IFROW : Type := mkMIB_IFROW {
  dwType : Z;
  dwInOctets : Z;
  dwOutOctets : Z
}.

(** The two calls of [GetIfTable]: the first one, for the size, does not
    answer ERROR_INSUFFICIENT_BUFFER; or the second one fails; or it fills
    the table. *)
Inductive IfTableQuery : Type :=
| SizeQueryFailed
| TableQueryFailed
| TableFilled (table : list MIB_IFROW).

Record NetStatics : Type := mkNetStatics {
  last_bytes_in : Z;
  last_bytes_out : Z;
  last_time : Z
}.

Definition initial_net_statics : NetStatics := mkNetStatics 0 0 0.

(** The loop over the entries of the table: the two sums, as DWORDs. *)
Definition sum_octets (MIB_IF_TYPE_LOOPBACK : Z) (table : list MIB_IFROW)
  : Z * Z :=
  fold_left
    (fun totals row =>
       if dwType row =? MIB_IF_TYPE_LOOPBACK then totals
       else (uint32 (fst totals + dwInOctets row),
             uint32 (snd totals + dwOutOctets row)))
    table (0, 0).

(** [if (diff < 0) diff += 0xFFFFFFFF;] *)
Definition unwrap_diff (diff : Z) : Z :=
  if diff <? 0 then diff + 4294967295 else diff.

Section Samplers.

Context {F : Type} `{Double F}.

(** The conversion of an [unsigned long long] to [double]: the high half
    scaled by [2^32], which is exact, plus the low half, rounded once. *)
Definition of_uint64 (z : Z) : F :=
  (of_int (z / 2 ^ 32) * of_int (2 ^ 32) + of_int (z mod 2 ^ 32))%D.

(** [GetSystemTimes] gives the idle, kernel and user times, or fails. *)
Definition GetCPULoad (GetSystemTimes : option (FILETIME * FILETIME * FILETIME))
    (st : CpuStatics) : F * CpuStatics :=
  match GetSystemTimes with
  | None => (of_int 0, st)
  | Some (idleTime, kernelTime, userTime) =>
      let idle :=
        uint64 (FileTimeToInt64 idleTime - FileTimeToInt64 (preIdleTime st)) in
      let kernel :=
        uint64 (FileTimeToInt64 kernelTime - FileTimeToInt64 (preKernelTime st)) in
      let user :=
        uint64 (FileTimeToInt64 userTime - FileTimeToInt64 (preUserTime st)) in
      let st' := mkCpuStatics idleTime kernelTime userTime in
      if uint64 (kernel + user) =? 0 then (of_int 0, st')
      else
        ((of_uint64 (uint64 (kernel + user - idle)) * of_int 100
          / of_uint64 (uint64 (kernel + user)))%D, st')
  end.

(** [dwMemoryLoad] is what [GlobalMemoryStatusEx] stored. *)
Definition GetMemoryUsage (dwMemoryLoad : Z) : F := of_int dwMemoryLoad.

Definition GetNetworkUsage (MIB_IF_TYPE_LOOPBACK : Z) (query : IfTableQuery)
    (GetTickCount : Z) (st : NetStatics) : F * NetStatics :=
  match query with
  | SizeQueryFailed => (of_int 0, st)
  | TableQueryFailed => (of_int 0, st)
  | TableFilled table =>
      let '(total_in, total_out) := sum_octets MIB_IF_TYPE_LOOPBACK table in
      let current_time := GetTickCount in
      let speed :=
        if last_time st =? 0 then of_int 0
        else
          let time_diff :=
            (of_int (uint32 (current_time - last_time st)) / of_int 1000)%D in
          if (of_int 0 <? time_diff)%D then
            let diff_in := unwrap_diff (total_in - last_bytes_in st) in
            let diff_out := unwrap_diff (total_out - last_bytes_out st) in
            let bytes_diff := of_int (diff_in + diff_out) in
            let speed :=
              (bytes_diff * of_int 8 / (of_int 1024 * of_int 1024))%D in
            (speed / time_diff)%D
          else of_int 0 in
      (speed, mkNetStatics total_in total_out current_time)
  end.

End Samplers.

(** The fields of a FILETIME are DWORDs. *)
Definition valid_time (ft : FILETIME) : Prop :=
  0 <= dwLowDateTime ft < 2 ^ 32 /\ 0 <= dwHighDateTime ft < 2 ^ 32.

(** The octets of a field over the interfaces that are not loopbacks. *)
Definition octets (MIB_IF_TYPE_LOOPBACK : Z) (field : MIB_IFROW -> Z)
    (table : list MIB_IFROW) : Z :=
  fold_right Z.add 0
    (map field (filter (fun row => negb (dwType row =? MIB_IF_TYPE_LOOPBACK))
                       table)).

(** The counters kept are DWORDs. *)
Definition valid_statics (st : NetStatics) : Prop :=
  0 <= last_bytes_in st < 2 ^ 32 /\ 0 <= last_bytes_out st < 2 ^ 32.

End Windows.

(** ** The areas set up at activation *)

(** The table [live_charts] of [on_activate]: the id and the type of the
    three live charts. *)
Definition live_charts : list (string * string) :=
  [("chart_live_cpu", "CPU Load"); ("chart_live_mem", "Memory Usage");
   ("chart_live_net", "Network Traffic")]%string.

(** The data [on_activate] attaches to the area of an id, and whether it
    adds a motion controller to it; [None] for an id it does not set up. *)
Definition on_activate_area (id : string) : option (Widget * bool) :=
  if String.eqb id "chart_area_current" then
    Some (mkWidget None false None false 0, true)
  else if String.eqb id "chart_area_delhi" then
    Some (mkWidget (Some "New Delhi"%string) false None false 0, false)
  else if String.eqb id "chart_area_mumbai" then
    Some (mkWidget (Some "Mumbai"%string) false None false 0, false)
  else
    match find (fun cfg => String.eqb id (fst cfg)) live_charts with
    | Some cfg => Some (mkWidget None true (Some (snd cfg)) false 0, true)
    | None => None
    end.

(** The states of the area of an id: the one set up at activation, then
    the motion and leave signals of its controller, when it has one. *)
Inductive area_state {F} `{Double F} (id : string) : Widget -> Prop :=
| area_activated widget controller :
    on_activate_area id = Some (widget, controller) ->
    area_state id widget
| area_motion initial widget (x y : F) :
    on_activate_area id = Some (initial, true) ->
    area_state id widget ->
    area_state id (on_chart_motion widget x y)
| area_leave initial widget :
    on_activate_area id = Some (initial, true) ->
    area_state id widget ->
    area_state id (on_chart_leave widget).

(** ** What the fetch handler shows *)

(** The calls on the widgets of the result box. *)
Inductive ui_op : Type :=
| gtk_label_set_text (label text : string)
| gtk_widget_remove_css_class (widget css_class : string)
| gtk_widget_add_css_class (widget css_class : string)
| gtk_widget_set_visible (widget : string) (visible : bool)
| gtk_widget_queue_draw (widget : string).

Definition health_advice (aqi : Z) : string :=
  if aqi <=? 50 then "Air quality is good. Enjoy outdoor activities!"
  else if aqi <=? 100 then
    "Air quality is acceptable. Sensitive groups should limit prolonged outdoor exertion."
  else if aqi <=? 200 then
    "Members of sensitive groups may experience health effects. The general public is not likely to be affected."
  else if aqi <=? 300 then
    "Everyone may begin to experience health effects; members of sensitive groups may experience more serious health effects."
  else
    "Health warnings of emergency conditions. The entire population is more likely to be affected.".

Definition status_css_class (aqi : Z) : string :=
  if aqi <=? 50 then "aqi-good"
  else if aqi <=? 100 then "aqi-ok"
  else "aqi-bad".

Definition aqi_css_classes : list string :=
  ["aqi-good"; "aqi-ok"; "aqi-bad"]%string.

(** A class that is none of the three. *)
Definition not_aqi_class (c : string) : bool :=
  negb (existsb (String.eqb c) aqi_css_classes).

Section FetchUi.

Context {F : Type} `{Double F}.

(** [snprintf(buffer, n, "%.1f", x)] *)
Variable format_1f : F -> string.

(** A call on an object the builder does not have is refused by the
    toolkit and has no effect. *)
Definition on_present (builder : Builder) (id : string) (ops : list ui_op)
  : list ui_op :=
  if builder id then ops else [].

(** The calls of [on_fetch_aqi_clicked] once it has the record of the
    selected city, in their order. *)
Definition show_aqi_data (builder : Builder) (d : AirQualityData F)
  : list ui_op :=
  on_present builder "lbl_city_name"
    [gtk_label_set_text "lbl_city_name" (city d)]
  ++ on_present builder "lbl_aqi_value"
       [gtk_label_set_text "lbl_aqi_value" (format_int (aqi d))]
  ++ on_present builder "lbl_aqi_status"
       [gtk_label_set_text "lbl_aqi_status" (status d)]
  ++ on_present builder "lbl_pm25"
       [gtk_label_set_text "lbl_pm25" ("PM2.5: " ++ format_1f (pm25 d))]
  ++ on_present builder "lbl_pm10"
       [gtk_label_set_text "lbl_pm10" ("PM10: " ++ format_1f (pm10 d))]
  ++ on_present builder "lbl_health_advice"
       [gtk_label_set_text "lbl_health_advice" (health_advice (aqi d))]
  ++ on_present builder "lbl_aqi_status"
       [gtk_widget_remove_css_class "lbl_aqi_status" "aqi-good";
        gtk_widget_remove_css_class "lbl_aqi_status" "aqi-ok";
        gtk_widget_remove_css_class "lbl_aqi_status" "aqi-bad";
        gtk_widget_add_css_class "lbl_aqi_status" (status_css_class (aqi d))]
  ++ [gtk_widget_set_visible "aqi_result_box" true]
  ++ on_present builder "chart_area_current"
       [gtk_widget_queue_draw "chart_area_current"].

(** The calls of the click on the fetch button. *)
Definition on_fetch_aqi_clicked_ui (char_signed : bool) (builder : Builder)
    (selected : string) : list ui_op :=
  if negb (builder "city_dropdown"%string) || negb (builder "aqi_result_box"%string)
  then []
  else show_aqi_data builder (get_mock_data char_signed selected).

End FetchUi.

(** The style classes of a widget after a call: a class is held once. *)
Definition css_step (widget : string) (classes : list string) (op : ui_op)
  : list string :=
  match op with
  | gtk_widget_remove_css_class w c =>
      if String.eqb w widget
      then filter (fun c' => negb (String.eqb c' c)) classes
      else classes
  | gtk_widget_add_css_class w c =>
      if String.eqb w widget
      then (if existsb (String.eqb c) classes then classes else classes ++ [c])
      else classes
  | _ => classes
  end.

Definition css_after (widget : string) (classes : list string)
    (ops : list ui_op) : list string :=
  fold_left (css_step widget) ops classes.

(** ** Runs of the timer *)

Section TickRuns.

Context {F : Type} `{Double F}.
Variable Env : Type.
Variable platform : Platform F Env.

(** The samples of [n] successive ticks from the platform state [e]. *)
Fixpoint samples_of_ticks (n : nat) (e : Env) : list (Z * Z * Z) :=
  match n with
  | O => []
  | S n' =>
      let '(_, e1) := GetCPULoad platform e in
      let '(_, e2) := GetMemoryUsage platform e1 in
      let '(_, e3) := GetNetworkUsage platform e2 in
      tick_samples Env platform e :: samples_of_ticks n' e3
  end.

End TickRuns.

(** What the live series hold on the portable platform. *)
Definition portable_ranges {F} (g : Globals F) : Prop :=
  Forall (fun v => 0 <= v <= 99) (history_cpu g) /\
  Forall (fun v => v = 0 \/ v = 50) (history_mem g) /\
  Forall (fun v => 0 <= v <= 99) (history_net g).

(** ** Reading the calls of the renderer *)

(** The texts shown, in their order. *)
Definition shown_texts {F} (ops : list (cairo_op F)) : list string :=
  flat_map (fun op => match op with cairo_show_text text => [text] | _ => [] end)
           ops.

(** The text of the label of the current value of a live chart. *)
Definition live_label_text (area : Widget) (hist : list Z)
    (network_unit : string) : string :=
  let current_val := last hist 0 in
  if type_has (live_type area) "CPU" || type_has (live_type area) "Memory" then
    (format_int current_val ++ "%")%string
  else if type_has (live_type area) "Network" then
    (format_int current_val ++ network_unit)%string
  else format_int current_val.

(** The points of the path: where the pen is moved or a line is drawn to. *)
Definition path_points {F} (ops : list (cairo_op F)) : list (F * F) :=
  flat_map (fun op =>
              match op with
              | cairo_move_to x y => [(x, y)]
              | cairo_line_to x y => [(x, y)]
              | _ => []
              end) ops.

(** Every value of a list within [bound] of the one before it, from
    [previous] on. *)
Fixpoint steps_within (bound previous : Z) (values : list Z) : Prop :=
  match values with
  | [] => True
  | v :: rest => Z.abs (v - previous) <= bound /\ steps_within bound v rest
  end.

(** ** Concrete platforms and widgets for the examples *)

(** A run of the portable platform on the sample [rand] of the C standard. *)
Definition iso_platform {F} `{Double F} : Platform F Z :=
  Portable.platform Z Portable.iso_rand.

Definition every_widget : Builder := fun _ => true.

(** The three kinds of drawing area [on_activate] sets up, not hovered. *)
Definition selection_chart : Widget := mkWidget None false None false 0.
Definition city_chart (name : string) : Widget :=
  mkWidget (Some name) false None false 0.
Definition live_chart (type : string) : Widget :=
  mkWidget None true (Some type) false 0.

Definition hover_at (widget : Widget) (x : Z) : Widget :=
  on_chart_motion (F:=Q) widget (of_int x) (of_int 0).

(** A text of 20 by 8 units, whatever the text. *)
Definition fixed_extents {F} `{Double F} (bold : bool) (size : Z) (text : string)
  : F * F := (of_int 20, of_int 8).

(** ** The order of binary64

    A number that is not a NaN has a key, a triple of integers: the
    comparisons of binary64 are the lexicographic order of the keys. *)

Module Binary64Order.

Definition is_nan_sf (f : spec_float) : bool :=
  match f with S754_nan => true | _ => false end.

Definition key (f : spec_float) : Z * Z * Z :=
  match f with
  | S754_nan => (0, 0, 0)
  | S754_zero _ => (0, 0, 0)
  | S754_infinity true => (-2, 0, 0)
  | S754_infinity false => (2, 0, 0)
  | S754_finite true m e => (-1, - e, - Z.pos m)
  | S754_finite false m e => (1, e, Z.pos m)
  end.

Definition key_lt (a b : Z * Z * Z) : Prop :=
  let '(a1, a2, a3) := a in
  let '(b1, b2, b3) := b in
  a1 < b1 \/ (a1 = b1 /\ (a2 < b2 \/ (a2 = b2 /\ a3 < b3))).

Definition key_le (a b : Z * Z * Z) : Prop :=
  let '(a1, a2, a3) := a in
  let '(b1, b2, b3) := b in
  a1 < b1 \/ (a1 = b1 /\ (a2 < b2 \/ (a2 = b2 /\ a3 <= b3))).

End Binary64Order.

(** * Properties *)

Module MachineIntFacts.

Lemma uint32_range z : 0 <= uint32 z < UINT_MODULUS.
Proof. unfold uint32, UINT_MODULUS. apply Z.mod_pos_bound. reflexivity. Qed.

Lemma int_of_uint_small u : 0 <= u <= INT_MAX -> int_of_uint u = u.
Proof.
  intros [_ Hu]. unfold int_of_uint.
  destruct (u <=? INT_MAX) eqn:E; [reflexivity | apply Z.leb_gt in E; lia].
Qed.

Lemma uint32_small z : 0 <= z < UINT_MODULUS -> uint32 z = z.
Proof. intro H. unfold uint32. apply Z.mod_small. exact H. Qed.

(** An [int] in range survives the round trip through [unsigned int]. *)
Lemma int_of_uint_uint32 z :
  - 2 ^ 31 <= z <= INT_MAX -> int_of_uint (uint32 z) = z.
Proof.
  unfold int_of_uint, uint32, UINT_MODULUS, INT_MAX. intros [Hl Hh].
  destruct (Z.neg_nonneg_cases z) as [Hneg | Hpos].
  - replace (z mod 2 ^ 32) with (z + 2 ^ 32).
    + destruct (z + 2 ^ 32 <=? 2 ^ 31 - 1) eqn:E; [apply Z.leb_le in E; lia | lia].
    + apply Z.mod_unique with (q := -1); lia.
  - rewrite Z.mod_small by lia.
    destruct (z <=? 2 ^ 31 - 1) eqn:E; [reflexivity | apply Z.leb_gt in E; lia].
Qed.

End MachineIntFacts.
Import MachineIntFacts.

Module ExactFacts.

Lemma lt_spec a b : Exact.lt a b = true <-> (a < b)%Q.
Proof.
  unfold Exact.lt. rewrite Qlt_alt.
  destruct (Qcompare a b); split; congruence.
Qed.

Lemma lt_false a b : Exact.lt a b = false <-> (b <= a)%Q.
Proof.
  rewrite <- Bool.not_true_iff_false, lt_spec. split.
  - apply Qnot_lt_le.
  - apply Qle_not_lt.
Qed.

End ExactFacts.
Import ExactFacts.

(** ** The rolling series of the live metrics *)

Section RollingSeries.

Context {F : Type} `{Double F}.
Variable Env : Type.
Variable platform : Platform F Env.
Variable builder : Builder.

Lemma push_sample_length h v :
  (length h <= 24 -> length (push_sample h v) <= 24)%nat.
Proof.
  intro Hle. unfold push_sample.
  destruct (24 <=? length h)%nat eqn:E.
  - apply Nat.leb_le in E.
    destruct h as [|x rest]; simpl in *; [lia|].
    rewrite length_app. simpl. lia.
  - apply Nat.leb_gt in E. rewrite length_app. simpl. lia.
Qed.

Lemma push_sample_full h v : Spec.fifo_evicts h v (push_sample h v).
Proof.
  intro Hlen. unfold push_sample. rewrite Hlen. simpl.
  destruct h as [|oldest rest]; [discriminate|].
  exists oldest, rest. simpl. repeat split.
  rewrite length_app. simpl in *. lia.
Qed.

Lemma push_sample_below h v :
  (length h < 24)%nat -> push_sample h v = h ++ [v].
Proof.
  intro Hlt. unfold push_sample.
  destruct (24 <=? length h)%nat eqn:E; [apply Nat.leb_le in E; lia | reflexivity].
Qed.

(** What a tick does to the globals, series by series. *)
Lemma on_live_tick_globals g e :
  let g' := fst (fst (fst (on_live_tick Env platform builder g e))) in
  let '(cpu, mem, net) := tick_samples Env platform e in
  history_cpu g' = push_sample (history_cpu g) cpu /\
  history_mem g' = push_sample (history_mem g) mem /\
  history_net g' = push_sample (history_net g) net /\
  current_aqi_data g' = current_aqi_data g /\
  live_tick g' = live_tick g + 1.
Proof.
  unfold on_live_tick, tick_samples.
  destruct (GetCPULoad platform e) as [cpu_load e1].
  destruct (GetMemoryUsage platform e1) as [mem_usage e2].
  destruct (GetNetworkUsage platform e2) as [net_usage e3].
  simpl. repeat split.
Qed.

Lemma on_live_tick_within_capacity g e :
  Spec.within_capacity g ->
  Spec.within_capacity (fst (fst (fst (on_live_tick Env platform builder g e)))).
Proof.
  intros (Hc & Hm & Hn).
  pose proof (on_live_tick_globals g e) as Ht. cbv zeta in Ht.
  destruct (tick_samples Env platform e) as [[cpu mem] net].
  destruct Ht as (Ec & Em & En & _).
  unfold Spec.within_capacity. rewrite Ec, Em, En.
  repeat split; apply push_sample_length; assumption.
Qed.

Lemma run_ticks_within_capacity n : forall g e,
  Spec.within_capacity g ->
  Spec.within_capacity (fst (run_ticks Env platform builder n g e)).
Proof.
  induction n as [|n IH]; intros g e Hg; simpl.
  - exact Hg.
  - pose proof (on_live_tick_within_capacity g e Hg) as Hstep.
    destruct (on_live_tick Env platform builder g e) as [[[g' e'] draws] again].
    apply IH. exact Hstep.
Qed.

Lemma initial_within_capacity : Spec.within_capacity (F:=F) initial_globals.
Proof. unfold Spec.within_capacity. simpl. lia. Qed.

(** C1. A live series never holds more than 24 samples, whatever the
    number of ticks (from the start of the program, and from any globals
    within capacity); and a tick on a series that holds 24 samples removes
    exactly the front one and appends the new sample at the back, the other
    23 keeping their order. *)
Theorem rolling_series_capacity (g : Globals F) (e : Env) :
  Spec.within_capacity g ->
  (forall n e0,
     Spec.within_capacity
       (fst (run_ticks Env platform builder n initial_globals e0))) /\
  (forall n, Spec.within_capacity (fst (run_ticks Env platform builder n g e))) /\
  (let g' := fst (fst (fst (on_live_tick Env platform builder g e))) in
   let '(cpu, mem, net) := tick_samples Env platform e in
   Spec.fifo_evicts (history_cpu g) cpu (history_cpu g') /\
   Spec.fifo_evicts (history_mem g) mem (history_mem g') /\
   Spec.fifo_evicts (history_net g) net (history_net g')).
Proof.
  intro Hg. split; [|split].
  - intros n e0. apply run_ticks_within_capacity, initial_within_capacity.
  - intro n. apply run_ticks_within_capacity, Hg.
  - pose proof (on_live_tick_globals g e) as Ht. cbv zeta in Ht |- *.
    destruct (tick_samples Env platform e) as [[cpu mem] net].
    destruct Ht as (Ec & Em & En & _). rewrite Ec, Em, En.
    repeat split; apply push_sample_full.
Qed.

End RollingSeries.

Lemma rolling_series_capacity_witness :
  Spec.within_capacity (F:=Q) initial_globals /\
  Spec.within_capacity
    (fst (run_ticks (F:=Q) Z iso_platform every_widget 30 initial_globals 1)).
Proof.
  assert (Hstart : Spec.within_capacity (F:=Q) initial_globals)
    by (unfold Spec.within_capacity; simpl; lia).
  split; [exact Hstart|].
  exact (proj1 (proj2 (rolling_series_capacity Z iso_platform every_widget
                         initial_globals 1 Hstart)) 30%nat).
Defined.

Example ticks_from_the_start :
  history_cpu (fst (run_ticks (F:=float) Z iso_platform every_widget 3
                              initial_globals 1))
  = repeat 0 21 ++ [38; 13; 51].
Proof. vm_compute. reflexivity. Qed.

(** ** The portable samplers *)

Section PortableSamplers.

Context {F : Type} `{Double F}.
Variable RandState : Type.
Variable rand : RandState -> Z * RandState.
Variable RAND_MAX : Z.

(** [rand] returns a value between 0 and [RAND_MAX]. *)
Hypothesis rand_range : forall e, 0 <= fst (rand e) <= RAND_MAX.

Lemma rem_100_range r : 0 <= r -> 0 <= Z.rem r 100 <= 99.
Proof.
  intro Hr. pose proof (Z.rem_bound_pos r 100 Hr ltac:(lia)). lia.
Qed.

(** C10. Without the Windows counters every sampler returns, at every
    call: the CPU and the network samplers an integer of [0, 99], the
    memory sampler the constant 50, which reads no pseudo-random number
    (the state of [rand] is untouched). *)
Theorem portable_samplers_bounded (e : RandState) :
  (exists v, fst (Portable.GetCPULoad RandState rand e) = of_int v /\ 0 <= v <= 99) /\
  (exists v, fst (Portable.GetNetworkUsage RandState rand e) = of_int v /\ 0 <= v <= 99) /\
  Portable.GetMemoryUsage RandState e = (of_int 50, e) /\
  (forall e', fst (Portable.GetMemoryUsage RandState e') =
              fst (Portable.GetMemoryUsage RandState e)).
Proof.
  unfold Portable.GetCPULoad, Portable.GetNetworkUsage, Portable.GetMemoryUsage.
  pose proof (rand_range e) as Hr.
  destruct (rand e) as [r e1]. simpl in *.
  repeat split.
  - exists (Z.rem r 100). split; [reflexivity | apply rem_100_range; lia].
  - exists (Z.rem r 100). split; [reflexivity | apply rem_100_range; lia].
Qed.

End PortableSamplers.

Lemma iso_rand_range e : 0 <= fst (Portable.iso_rand e) <= 32767.
Proof.
  unfold Portable.iso_rand. simpl.
  pose proof (Z.mod_pos_bound
                (uint32 (uint32 (e * 1103515245 + 12345) / 65536)) 32768
                ltac:(lia)).
  lia.
Qed.

Lemma portable_samplers_bounded_witness :
  (exists v, fst (Portable.GetCPULoad (F:=float) Z Portable.iso_rand 1)
             = of_int v /\ 0 <= v <= 99) /\
  (exists v, fst (Portable.GetNetworkUsage (F:=float) Z Portable.iso_rand 1)
             = of_int v /\ 0 <= v <= 99) /\
  Portable.GetMemoryUsage (F:=float) Z 1 = (of_int 50, 1) /\
  (forall e', fst (Portable.GetMemoryUsage (F:=float) Z e') =
              fst (Portable.GetMemoryUsage (F:=float) Z 1)).
Proof.
  exact (portable_samplers_bounded Z Portable.iso_rand 32767 iso_rand_range 1).
Defined.

(** The cast [(int)] gives back the integer a portable sampler returns, on
    the machine's numbers and on the exact ones. *)
Lemma trunc_of_int_binary64 v :
  0 <= v <= 99 -> trunc (F:=float) (of_int v) = v.
Proof.
  intro Hv.
  assert (Hall : forallb (fun n => trunc (F:=float) (of_int (Z.of_nat n)) =? Z.of_nat n)
                         (seq 0 100) = true) by (vm_compute; reflexivity).
  rewrite forallb_forall in Hall.
  specialize (Hall (Z.to_nat v)).
  rewrite Z2Nat.id in Hall by lia.
  apply Z.eqb_eq, Hall, in_seq. lia.
Qed.

Lemma trunc_of_int_exact v : trunc (F:=Q) (of_int v) = v.
Proof. simpl. unfold Exact.trunc. simpl. apply Z.quot_1_r. Qed.

(** ** The mock generator *)

Section MockGenerator.

Context {F : Type} `{Double F}.
Variable char_signed : bool.

Lemma hash_loop_fold p : forall hash,
  hash_loop char_signed p hash =
  fold_left (fun h c => (h * 31 + char_value char_signed c) mod 2 ^ 32)
            (Spec.c_chars p) hash.
Proof.
  induction p as [|c rest IH]; intro hash; simpl.
  - reflexivity.
  - destruct (N_of_ascii c =? 0)%N; simpl; [reflexivity | apply IH].
Qed.

Lemma hash_loop_range p : forall hash,
  0 <= hash < 2 ^ 32 -> 0 <= hash_loop char_signed p hash < 2 ^ 32.
Proof.
  induction p as [|c rest IH]; intros hash Hh; simpl.
  - exact Hh.
  - destruct (N_of_ascii c =? 0)%N; [exact Hh|].
    apply IH. apply uint32_range.
Qed.

Lemma my_rand_spec seed :
  my_rand seed =
  (Z.shiftr ((seed * 1103515245 + 12345) mod 2 ^ 32) 16 mod 32768,
   (seed * 1103515245 + 12345) mod 2 ^ 32).
Proof.
  unfold my_rand. f_equal.
  set (s := uint32 (seed * 1103515245 + 12345)).
  pose proof (uint32_range (seed * 1103515245 + 12345)) as Hs. fold s in Hs.
  unfold UINT_MODULUS in Hs.
  rewrite uint32_small.
  - rewrite Z.shiftr_div_pow2 by lia. reflexivity.
  - unfold UINT_MODULUS. split.
    + apply Z.div_pos; lia.
    + apply Z.div_lt_upper_bound; lia.
Qed.

Lemma my_rand_range seed : 0 <= fst (my_rand seed) < 32768.
Proof. unfold my_rand. simpl. apply Z.mod_pos_bound. lia. Qed.

(** The unsigned subtraction of the source gives the signed difference. *)
Lemma fluctuation_of_spec r :
  fluctuation_of r = r mod 41 - 20 /\ -20 <= fluctuation_of r <= 20.
Proof.
  pose proof (Z.mod_pos_bound r 41 ltac:(lia)) as Hm.
  unfold fluctuation_of. rewrite int_of_uint_uint32.
  - lia.
  - unfold INT_MAX. lia.
Qed.

Lemma fluctuations_length n : forall seed,
  length (Spec.fluctuations n seed) = n.
Proof.
  unfold Spec.fluctuations. intro seed. rewrite length_map.
  revert seed. induction n as [|n IH]; intro seed; simpl; [reflexivity|].
  now rewrite IH.
Qed.

Lemma fluctuations_range n seed :
  Forall (fun f => -20 <= f <= 20) (Spec.fluctuations n seed).
Proof.
  unfold Spec.fluctuations. apply Forall_forall. intros f Hin.
  apply in_map_iff in Hin. destruct Hin as (out & <- & _).
  pose proof (Z.mod_pos_bound out 41 ltac:(lia)). lia.
Qed.

Lemma insert_each_at_front_rev (samples : list Z) : forall acc,
  fold_left (fun acc v => v :: acc) samples acc = rev samples ++ acc.
Proof.
  induction samples as [|v rest IH]; intro acc; simpl.
  - reflexivity.
  - rewrite IH, <- app_assoc. reflexivity.
Qed.

(** The loop of the source walks as the specification says, front
    insertion reversing the order of production. *)
Lemma history_loop_walk n : forall seed current hist,
  history_loop n seed current hist =
  rev (Spec.walk current (Spec.fluctuations n seed)) ++ hist.
Proof.
  induction n as [|n IH]; intros seed current hist.
  - reflexivity.
  - cbn [history_loop]. rewrite my_rand_spec.
    destruct (fluctuation_of_spec
                (Z.shiftr ((seed * 1103515245 + 12345) mod 2 ^ 32) 16 mod 32768))
      as [-> _].
    unfold Spec.fluctuations. cbn [Spec.lcg_outputs map Spec.walk rev].
    fold (Spec.fluctuations n ((seed * 1103515245 + 12345) mod 2 ^ 32)).
    set (val := current + _).
    replace (if val <? 0 then 0 else val) with (Z.max 0 val)
      by (destruct (val <? 0) eqn:E;
          [apply Z.ltb_lt in E | apply Z.ltb_ge in E]; lia).
    rewrite IH, <- app_assoc. reflexivity.
Qed.

Lemma walk_length fluct : forall previous,
  length (Spec.walk previous fluct) = length fluct.
Proof.
  induction fluct as [|f rest IH]; intro previous; simpl;
    [reflexivity | now rewrite IH].
Qed.

(** The walk never leaves the range of [int]: the sum [current +
    fluctuation] of the source does not overflow. *)
Lemma walk_bounds fluct : forall previous bound,
  0 <= previous <= bound ->
  Forall (fun f => -20 <= f <= 20) fluct ->
  Forall (fun v => 0 <= v <= bound + 20 * Z.of_nat (length fluct))
         (Spec.walk previous fluct).
Proof.
  induction fluct as [|f rest IH]; intros previous bound Hp Hf;
    cbn [Spec.walk length].
  - constructor.
  - inversion Hf as [|? ? Hf1 Hrest]; subst.
    rewrite Nat2Z.inj_succ.
    constructor; [lia|].
    specialize (IH (Z.max 0 (previous + f)) (bound + 20) ltac:(lia) Hrest).
    eapply Forall_impl; [|exact IH]. cbn beta. intros v Hv. lia.
Qed.

Lemma mock_aqi_spec city :
  aqi (get_mock_data (F:=F) char_signed city)
  = hash_loop char_signed city 0 mod 300 + 50.
Proof.
  simpl.
  pose proof (Z.mod_pos_bound (hash_loop char_signed city 0) 300 ltac:(lia)).
  rewrite uint32_small by (unfold UINT_MODULUS; lia).
  apply int_of_uint_small. unfold INT_MAX. lia.
Qed.

Lemma mock_history_walk city :
  let d := get_mock_data (F:=F) char_signed city in
  history d =
  Spec.insert_each_at_front
    (Spec.walk (aqi d) (Spec.fluctuations 24 (Spec.hash char_signed city))).
Proof.
  intro d. unfold Spec.insert_each_at_front, Spec.hash.
  rewrite insert_each_at_front_rev, <- hash_loop_fold.
  unfold d. cbn [get_mock_data history aqi].
  rewrite history_loop_walk. reflexivity.
Qed.

Lemma mock_history_length city :
  length (history (get_mock_data (F:=F) char_signed city)) = 24%nat.
Proof.
  rewrite mock_history_walk. unfold Spec.insert_each_at_front.
  rewrite insert_each_at_front_rev, app_nil_r, length_rev, walk_length.
  apply fluctuations_length.
Qed.

(** C3. The base value is [(hash mod 300) + 50] for the hash iterated as
    [hash * 31 + char], hence in [50, 349]; the history has exactly 24
    samples, walked from the base value by fluctuations [(LCG output mod
    41) - 20] of [-20, 20], each clamped at 0 and inserted at the front; the
    history is these 24 walked samples and nothing else: the base value is
    not added at either end. *)
Theorem mock_generator_values (city : string) :
  let d := get_mock_data (F:=F) char_signed city in
  let hash := Spec.hash char_signed city in
  let fluct := Spec.fluctuations 24 hash in
  hash_loop char_signed city 0 = hash /\
  aqi d = hash mod 300 + 50 /\
  50 <= aqi d <= 349 /\
  length (history d) = 24%nat /\
  length fluct = 24%nat /\
  Forall (fun f => -20 <= f <= 20) fluct /\
  history d = Spec.insert_each_at_front (Spec.walk (aqi d) fluct) /\
  Forall (fun v => 0 <= v <= INT_MAX) (history d) /\
  history d <> Spec.insert_each_at_front (Spec.walk (aqi d) fluct) ++ [aqi d] /\
  history d <> aqi d :: Spec.insert_each_at_front (Spec.walk (aqi d) fluct).
Proof.
  intros d hash fluct.
  assert (Hhash : hash_loop char_signed city 0 = hash)
    by apply hash_loop_fold.
  assert (Haqi : aqi d = hash mod 300 + 50)
    by (unfold d; rewrite mock_aqi_spec, Hhash; reflexivity).
  assert (Hrange : 50 <= aqi d <= 349)
    by (rewrite Haqi; pose proof (Z.mod_pos_bound hash 300 ltac:(lia)); lia).
  assert (Hhist : history d = Spec.insert_each_at_front (Spec.walk (aqi d) fluct))
    by apply mock_history_walk.
  assert (Hlen : length (history d) = 24%nat)
    by apply mock_history_length.
  repeat match goal with |- _ /\ _ => split end; try assumption; try lia.
  - apply fluctuations_range.
  - rewrite Hhist. unfold Spec.insert_each_at_front.
    rewrite insert_each_at_front_rev, app_nil_r.
    apply Forall_rev.
    pose proof (walk_bounds fluct (aqi d) 349 ltac:(lia)
                  (fluctuations_range 24 hash)) as Hb.
    eapply Forall_impl; [|exact Hb]. cbn beta. intros v Hv.
    unfold fluct in Hv. rewrite fluctuations_length in Hv.
    unfold INT_MAX. lia.
  - rewrite <- Hhist. intro Heq. apply (f_equal (@length Z)) in Heq.
    rewrite length_app, Hlen in Heq. cbn [length] in Heq. lia.
  - rewrite <- Hhist. intro Heq. apply (f_equal (@length Z)) in Heq.
    cbn [length] in Heq. rewrite Hlen in Heq. lia.
Qed.

End MockGenerator.

Example mock_series_mumbai :
  get_mock_data (F:=float) true "Mumbai" =
  {| city := "Mumbai"; aqi := 143; status := "Moderate 🟠";
     pm25 := 0x1.5733333333333p+6%float; pm10 := 0x1.5733333333333p+7%float;
     history := [141; 158; 166; 168; 154; 161; 147; 147; 154; 146; 129; 142;
                 127; 119; 110; 129; 119; 104; 84; 96; 105; 113; 122; 136] |}.
Proof. vm_compute. reflexivity. Qed.

(** ** The status tiers *)

Ltac leb_cases :=
  repeat match goal with
         | |- context [?x <=? ?y] => destruct (Z.leb_spec x y)
         end.

(** C4. The tiers have inclusive upper bounds: at most 50 is tier 1
    ("Good"), above 50 up to 100 tier 2 ("Satisfactory"), above 100 up to
    200 tier 3 ("Moderate"), above 200 up to 300 tier 4 ("Poor"), above 300
    tier 5 ("Very Bad"); the status of the generated record is the label of
    the tier of its base value. *)
Theorem status_tier_boundaries (a : Z) :
  (tier_of_aqi a = Good <-> a <= 50) /\
  (tier_of_aqi a = Satisfactory <-> 50 < a <= 100) /\
  (tier_of_aqi a = Moderate <-> 100 < a <= 200) /\
  (tier_of_aqi a = Poor <-> 200 < a <= 300) /\
  (tier_of_aqi a = VeryBad <-> 300 < a) /\
  map tier_number [Good; Satisfactory; Moderate; Poor; VeryBad] = [1; 2; 3; 4; 5] /\
  map (fun t => String.prefix (fst t) (tier_status (snd t)))
      [("Good", Good); ("Satisfactory", Satisfactory); ("Moderate", Moderate);
       ("Poor", Poor); ("Very Bad", VeryBad)]%string
  = [true; true; true; true; true] /\
  map (fun v => tier_number (tier_of_aqi v)) [50; 51; 100; 101; 200; 201; 300; 301]
  = [1; 2; 2; 3; 3; 4; 4; 5] /\
  (forall F (D : Double F) char_signed name,
     status (get_mock_data (F:=F) char_signed name) =
     tier_status (tier_of_aqi (aqi (get_mock_data (F:=F) char_signed name)))).
Proof.
  repeat match goal with |- _ /\ _ => split end;
    try reflexivity; unfold tier_of_aqi; leb_cases;
    split; intro; try discriminate; try reflexivity; lia.
Qed.

(** ** Determinism of the mock generator *)

Section Determinism.

Context {F : Type} `{Double F}.
Variable char_signed : bool.

Lemma on_fetch_aqi_clicked_data builder selected (g : Globals F) :
  builder "city_dropdown"%string = true ->
  builder "aqi_result_box"%string = true ->
  current_aqi_data (fst (on_fetch_aqi_clicked char_signed builder selected g))
  = get_mock_data char_signed selected.
Proof.
  intros Hd Hr. unfold on_fetch_aqi_clicked. rewrite Hd, Hr. reflexivity.
Qed.

Lemma on_draw_chart_city ext (g : Globals F) area width height name :
  is_live area = false ->
  city_name area = Some name ->
  on_draw_chart char_signed ext g area width height =
  draw_series ext width height area (history (get_mock_data (F:=F) char_signed name)).
Proof.
  intros Hl Hc. unfold on_draw_chart, select_data. rewrite Hl, Hc. reflexivity.
Qed.

(** C2. Two calls of the generator with one name give the same record:
    base value, status, the two readings and the 24 samples.  The calls are
    those of the fetch handler in two arbitrary states of the globals (so
    after any earlier calls and any ticks, whatever the platform's [rand]
    returned), and those of the renderer of a chart of a fixed city. *)
Theorem mock_generator_deterministic
    (builder : Builder) (name : string) (g1 g2 : Globals F) :
  builder "city_dropdown"%string = true ->
  builder "aqi_result_box"%string = true ->
  let d1 := current_aqi_data
              (fst (on_fetch_aqi_clicked char_signed builder name g1)) in
  let d2 := current_aqi_data
              (fst (on_fetch_aqi_clicked char_signed builder name g2)) in
  d1 = d2 /\
  aqi d1 = aqi d2 /\ status d1 = status d2 /\
  pm25 d1 = pm25 d2 /\ pm10 d1 = pm10 d2 /\
  history d1 = history d2 /\ length (history d1) = 24%nat /\
  (forall ext area width height,
     is_live area = false -> city_name area = Some name ->
     on_draw_chart char_signed ext g1 area width height =
     on_draw_chart char_signed ext g2 area width height).
Proof.
  intros Hd Hr d1 d2.
  assert (E : d1 = d2).
  { unfold d1, d2. now rewrite !on_fetch_aqi_clicked_data. }
  repeat match goal with |- _ /\ _ => split end; try (now rewrite E).
  - unfold d1. rewrite on_fetch_aqi_clicked_data by assumption.
    apply mock_history_length.
  - intros ext area width height Hl Hc.
    now rewrite !(on_draw_chart_city ext _ area width height name Hl Hc).
Qed.

End Determinism.

Lemma mock_generator_deterministic_witness :
  let g1 := initial_globals (F:=float) in
  let g2 := fst (on_fetch_aqi_clicked true every_widget "New Delhi"
                   (fst (run_ticks Z iso_platform every_widget 5 g1 7))) in
  current_aqi_data (fst (on_fetch_aqi_clicked true every_widget "Mumbai" g1)) =
  current_aqi_data (fst (on_fetch_aqi_clicked true every_widget "Mumbai" g2)).
Proof.
  intros g1 g2.
  exact (proj1 (mock_generator_deterministic true every_widget "Mumbai" g1 g2
                  eq_refl eq_refl)).
Defined.

(** For a name of ASCII characters the record is the same whether plain
    [char] is signed or not. *)
Lemma char_value_ascii c :
  (N_of_ascii c < 128)%N -> char_value true c = char_value false c.
Proof.
  intro Hc. unfold char_value. simpl.
  destruct (128 <=? Z.of_N (N_of_ascii c)) eqn:E; [apply Z.leb_le in E; lia | reflexivity].
Qed.

Lemma hash_loop_ascii name : forall hash,
  Forall (fun c => (N_of_ascii c < 128)%N) (list_ascii_of_string name) ->
  hash_loop true name hash = hash_loop false name hash.
Proof.
  induction name as [|c rest IH]; intros hash Hall; simpl.
  - reflexivity.
  - inversion Hall as [|? ? Hc Hrest]; subst.
    destruct (N_of_ascii c =? 0)%N; [reflexivity|].
    rewrite char_value_ascii by exact Hc. apply IH, Hrest.
Qed.

Lemma get_mock_data_ascii {F} `{Double F} name :
  Forall (fun c => (N_of_ascii c < 128)%N) (list_ascii_of_string name) ->
  get_mock_data (F:=F) true name = get_mock_data (F:=F) false name.
Proof.
  intro Hall. unfold get_mock_data. now rewrite hash_loop_ascii.
Qed.

(** ** The summary values *)

Example constants_of_the_source :
  lit (F:=float) 6 10 = 0x1.3333333333333p-1%float /\
  lit (F:=float) 12 10 = 0x1.3333333333333p+0%float /\
  lit (F:=float) 5 10 = 0x1p-1%float /\
  lit (F:=float) 11 10 = 0x1.199999999999ap+0%float /\
  lit (F:=float) 15 10 = 0x1.8p+0%float.
Proof. vm_compute. repeat split. Qed.

(** The globals after one tick of the portable platform: the CPU series
    ends with the sample 38. *)
Example cpu_after_one_tick :
  back_or_zero
    (history_cpu (fst (run_ticks (F:=float) Z iso_platform every_widget 1
                                 initial_globals 1))) = 38.
Proof. vm_compute. reflexivity. Qed.

(** C8 does not hold as stated for the live kinds: the record of a live
    series carries a status and two readings.  After one tick, the record of
    the CPU chart has the status "Live" and the readings 38 * 0.5 and
    38 * 1.1. *)
Lemma live_summary_present :
  let g := fst (run_ticks (F:=float) Z iso_platform every_widget 1
                          initial_globals 1) in
  let d := get_live_data g "CPU Load" in
  status d = "Live"%string /\
  pm25 d = 0x1.3p+4%float /\
  pm10 d = 0x1.4e66666666667p+5%float /\
  ~ Spec.summary_absent d.
Proof.
  vm_compute. repeat split.
  intros (Hs & _). discriminate Hs.
Qed.

Section Summary.

Context {F : Type} `{Double F}.

Lemma tier_status_not_live t : tier_status t <> "Live"%string.
Proof. destruct t; discriminate. Qed.

(** C8, amended.  The two readings of a mock series are the products of the
    base value by the constants 0.6 and 1.2.  The record of a live series
    has no tier: its status is the fixed text "Live", which is the label of
    no tier; its two readings are computed all the same, from the latest
    sample, by the constants 0.5 and 1.1. *)
Theorem summary_values (char_signed : bool) (name type : string) (g : Globals F) :
  let m := get_mock_data (F:=F) char_signed name in
  let d := get_live_data g type in
  pm25 m = (of_int (aqi m) * lit 6 10)%D /\
  pm10 m = (of_int (aqi m) * lit 12 10)%D /\
  status d = "Live"%string /\
  (forall t, tier_status t <> status d) /\
  aqi d = back_or_zero (history d) /\
  pm25 d = (of_int (aqi d) * lit 5 10)%D /\
  pm10 d = (of_int (aqi d) * lit 11 10)%D.
Proof.
  intros m d.
  repeat match goal with |- _ /\ _ => split end; try reflexivity.
  intro t. apply tier_status_not_live.
Qed.

End Summary.

(** ** The renderer on an empty series *)

Section EmptySeries.

Context {F : Type} `{Double F}.
Variable char_signed : bool.
Variable cairo_text_extents : bool -> Z -> string -> F * F.

Lemma draw_series_nonempty width height area hist :
  hist <> [] -> draw_series cairo_text_extents width height area hist <> [].
Proof.
  intro Hne. destruct hist as [|v rest]; [contradiction | discriminate].
Qed.

Lemma on_draw_chart_shown g area width height :
  on_draw_chart char_signed cairo_text_extents g area width height =
  draw_series cairo_text_extents width height area
              (shown_series char_signed g area).
Proof.
  unfold on_draw_chart, shown_series.
  destruct (select_data char_signed g area); reflexivity.
Qed.

Lemma draw_series_nil width height area :
  draw_series cairo_text_extents width height area [] = [].
Proof. reflexivity. Qed.

Lemma on_draw_chart_nil g area width height :
  shown_series char_signed g area = [] ->
  on_draw_chart char_signed cairo_text_extents g area width height = [].
Proof.
  intro Hempty. rewrite on_draw_chart_shown, Hempty. apply draw_series_nil.
Qed.

(** C9. On a series without samples the renderer makes no call on the
    cairo context and returns: both where the selected city has no samples
    yet (the handler returns before it copies the record) and where the
    record it fetched has none. *)
Theorem empty_series_noop (g : Globals F) (area : Widget) (width height : Z) :
  shown_series char_signed g area = [] ->
  on_draw_chart char_signed cairo_text_extents g area width height = [] /\
  draw_series cairo_text_extents width height area [] = [].
Proof.
  intro Hempty. split; [apply on_draw_chart_nil, Hempty | apply draw_series_nil].
Qed.

(** The renderer does draw every series that has samples. *)
Lemma nonempty_series_drawn (g : Globals F) (area : Widget) (width height : Z) :
  shown_series char_signed g area <> [] ->
  on_draw_chart char_signed cairo_text_extents g area width height <> [].
Proof.
  intro Hne. rewrite on_draw_chart_shown. apply draw_series_nonempty, Hne.
Qed.

End EmptySeries.

(** At the start of the program no city is selected yet; and a live series
    emptied by hand is not drawn either. *)
Lemma empty_series_noop_witness :
  on_draw_chart (F:=float) true fixed_extents initial_globals selection_chart
                300 200 = [] /\
  on_draw_chart (F:=float) true fixed_extents
                (mkGlobals (current_aqi_data initial_globals) [] [] [] 0)
                (live_chart "CPU Load") 300 200 = [].
Proof.
  split.
  - exact (proj1 (empty_series_noop true fixed_extents initial_globals
                    selection_chart 300 200 eq_refl)).
  - exact (proj1 (empty_series_noop true fixed_extents
                    (mkGlobals (current_aqi_data initial_globals) [] [] [] 0)
                    (live_chart "CPU Load") 300 200 eq_refl)).
Defined.

(** ** The step of the line and the single-sample series *)


Section SeriesSizes.

Context {F : Type} `{Double F}.
Variable char_signed : bool.
Variable Env : Type.
Variable platform : Platform F Env.

Lemma push_sample_keeps_24 h v :
  length h = 24%nat -> length (push_sample h v) = 24%nat.
Proof.
  intro Hlen. destruct (push_sample_full h v Hlen) as (? & ? & _ & _ & Hl).
  exact Hl.
Qed.

Lemma reachable_sizes g :
  reachable char_signed Env platform g -> sizes_ok g.
Proof.
  induction 1 as [| g e builder Hreach IH | g builder selected Hreach IH].
  - unfold sizes_ok. simpl. repeat split. left. reflexivity.
  - destruct IH as (Hc & Hm & Hn & Hcur).
    pose proof (on_live_tick_globals Env platform builder g e) as Ht.
    cbv zeta in Ht.
    destruct (tick_samples Env platform e) as [[cpu mem] net].
    destruct Ht as (Ec & Em & En & Ecur & _).
    unfold sizes_ok. rewrite Ec, Em, En, Ecur.
    repeat split; try (apply push_sample_keeps_24; assumption). exact Hcur.
  - destruct IH as (Hc & Hm & Hn & Hcur).
    unfold on_fetch_aqi_clicked.
    destruct (negb (builder "city_dropdown"%string)
              || negb (builder "aqi_result_box"%string)); simpl.
    + repeat split; assumption.
    + repeat split; try assumption. right. apply mock_history_length.
Qed.

Lemma shown_series_sizes g area :
  sizes_ok g ->
  shown_series char_signed g area = [] \/
  length (shown_series char_signed g area) = 24%nat.
Proof.
  intros (Hc & Hm & Hn & Hcur). unfold shown_series, select_data.
  destruct (is_live area).
  - right. unfold get_live_data. cbn [history].
    destruct (strstr _ "CPU"); [exact Hc|].
    destruct (strstr _ "Mem"); [exact Hm | exact Hn].
  - destruct (city_name area) as [name|].
    + right. apply mock_history_length.
    + destruct (history (current_aqi_data g)) as [|v rest] eqn:E.
      * left. reflexivity.
      * right. rewrite E. destruct Hcur as [Hnil | Hlen];
          [discriminate | exact Hlen].
Qed.


End SeriesSizes.


(** ** The scan for the nearest sample, on the exact numbers *)

Ltac exact_ops :=
  cbn [dadd dsub dmul ddiv dabs dlt of_int trunc exact] in *.

Section HitTest.

Variable step_x : Q.
Variable mouse_x : Z.

Local Abbreviation dist := (Spec.distance (F:=Q) step_x mouse_x).

Lemma closest_from_step n i index min_dist :
  closest_from (F:=Q) (S n) i step_x mouse_x index min_dist =
  if Exact.lt (dist i) min_dist
  then closest_from n (i + 1) step_x mouse_x i (dist i)
  else closest_from n (i + 1) step_x mouse_x index min_dist.
Proof. reflexivity. Qed.

(** The scan from sample [i] over [n] samples: the distance kept is below
    the one it started with and below every distance scanned; either
    nothing was closer than the start, or the index kept is the first one
    at the least distance. *)
Lemma closest_from_exact n : forall i index min_dist,
  let r := closest_from (F:=Q) n i step_x mouse_x index min_dist in
  (snd r <= min_dist)%Q /\
  (forall j, i <= j < i + Z.of_nat n -> (snd r <= dist j)%Q) /\
  ((r = (index, min_dist) /\
    forall j, i <= j < i + Z.of_nat n -> (min_dist <= dist j)%Q) \/
   (i <= fst r < i + Z.of_nat n /\
    snd r = dist (fst r) /\
    (snd r < min_dist)%Q /\
    forall j, i <= j < fst r -> (snd r < dist j)%Q)).
Proof.
  induction n as [|n IH]; intros i index min_dist.
  - cbn [closest_from snd fst]. split; [apply Qle_refl|].
    split; [intros j Hj; lia|].
    left. split; [reflexivity | intros j Hj; lia].
  - rewrite closest_from_step. rewrite Nat2Z.inj_succ.
    destruct (Exact.lt (dist i) min_dist) eqn:E.
    + apply lt_spec in E.
      specialize (IH (i + 1) i (dist i)). cbv zeta in IH |- *.
      set (r := closest_from n (i + 1) step_x mouse_x i (dist i)) in *.
      destruct IH as (Hle & Hall & Hcase).
      split; [apply Qlt_le_weak; eapply Qle_lt_trans; eassumption|].
      split.
      * intros j Hj. destruct (Z.eq_dec j i) as [-> | Hne];
          [exact Hle | apply Hall; lia].
      * right. destruct Hcase as [[Hr _] | (Hidx & Hsnd & Hlt & Hfirst)].
        -- rewrite Hr. cbn [fst snd].
           repeat split; try lia; try assumption.
        -- repeat split; try lia; try assumption.
           ++ eapply Qlt_trans; eassumption.
           ++ intros j Hj. destruct (Z.eq_dec j i) as [-> | Hne];
                [exact Hlt | apply Hfirst; lia].
    + apply lt_false in E.
      specialize (IH (i + 1) index min_dist). cbv zeta in IH |- *.
      set (r := closest_from n (i + 1) step_x mouse_x index min_dist) in *.
      destruct IH as (Hle & Hall & Hcase).
      split; [exact Hle|].
      split.
      * intros j Hj. destruct (Z.eq_dec j i) as [-> | Hne];
          [eapply Qle_trans; eassumption | apply Hall; lia].
      * destruct Hcase as [[Hr Hnone] | (Hidx & Hsnd & Hlt & Hfirst)].
        -- left. split; [exact Hr|].
           intros j Hj. destruct (Z.eq_dec j i) as [-> | Hne];
             [exact E | apply Hnone; lia].
        -- right. repeat split; try lia; try assumption.
           intros j Hj. destruct (Z.eq_dec j i) as [-> | Hne];
             [eapply Qlt_le_trans; eassumption | apply Hfirst; lia].
Qed.

Variable size : nat.

Local Abbreviation found := (closest_index (F:=Q) size step_x mouse_x).

Lemma closest_index_cases :
  found = (-1, of_int 9999) \/
  (0 <= fst found < Z.of_nat size /\ snd found = dist (fst found)).
Proof.
  pose proof (closest_from_exact size 0 (-1) (of_int 9999)) as Hscan.
  cbv zeta in Hscan. unfold closest_index.
  set (r := closest_from size 0 step_x mouse_x (-1) (of_int 9999)) in *.
  destruct Hscan as (_ & _ & [[Hr _] | (Hidx & Hsnd & _)]).
  - left. exact Hr.
  - right. split; [lia | exact Hsnd].
Qed.

End HitTest.

Section Overlay.

Context {F : Type} `{Double F}.
Variable cairo_text_extents : bool -> Z -> string -> F * F.

(** The overlay is drawn when the area is hovered and a point snaps. *)
Lemma overlay_drawn_iff width height max_val step_x area hist :
  overlay cairo_text_extents width height max_val step_x area hist <> [] <->
  is_hovering area = true /\
  snaps step_x (closest_index (length hist) step_x (hover_mouse_x area)) = true.
Proof.
  unfold overlay.
  destruct (is_hovering area); [|split; [congruence | intros [? _]; discriminate]].
  destruct (snaps step_x _); [|split; [congruence | intros [_ ?]; discriminate]].
  destruct (cairo_text_extents _ _ _) as [ext_width ext_height].
  destruct (tooltip_box _ _ _ _ _) as [box_x box_y].
  split; [intros _; split; reflexivity | intros _; discriminate].
Qed.

Lemma overlay_not_drawn_iff width height max_val step_x area hist :
  overlay cairo_text_extents width height max_val step_x area hist = [] <->
  is_hovering area = false \/
  snaps step_x (closest_index (length hist) step_x (hover_mouse_x area)) = false.
Proof.
  pose proof (overlay_drawn_iff width height max_val step_x area hist) as Hiff.
  destruct (overlay cairo_text_extents width height max_val step_x area hist)
    as [|op ops].
  - split; [intros _ | reflexivity].
    destruct (is_hovering area); [|left; reflexivity].
    destruct (snaps step_x _); [|right; reflexivity].
    exfalso. apply (proj2 Hiff); [split; reflexivity | reflexivity].
  - split; [discriminate|].
    destruct (proj1 Hiff ltac:(discriminate)) as [Hh Hs].
    intros [Hc | Hc]; congruence.
Qed.

End Overlay.

Section HoverExact.

Lemma distance_nonneg step_x mouse_x i :
  (0 <= Spec.distance (F:=Q) step_x mouse_x i)%Q.
Proof. unfold Spec.distance. exact_ops. apply Qabs_nonneg. Qed.

Lemma snaps_iff (step_x : Q) found :
  snaps step_x found = true <->
  0 <= fst found /\ (snd found < step_x / lit 15 10)%Q.
Proof.
  unfold snaps. rewrite andb_true_iff, Z.leb_le. exact_ops.
  rewrite lt_spec. reflexivity.
Qed.

End HoverExact.

(** ** The order of the machine's numbers

    The comparisons [<] and [<=] of binary64, from the specification of the
    primitive floats: they are the lexicographic order of the keys of the
    numbers; a comparison with a NaN is false. *)

Module Binary64OrderFacts.
Import Binary64Order.

Lemma SFcompare_key (f g : spec_float) :
  match SFcompare f g with
  | None => is_nan_sf f = true \/ is_nan_sf g = true
  | Some Lt => is_nan_sf f = false /\ is_nan_sf g = false /\ key_lt (key f) (key g)
  | Some Eq => is_nan_sf f = false /\ is_nan_sf g = false /\ key f = key g
  | Some Gt => is_nan_sf f = false /\ is_nan_sf g = false /\ key_lt (key g) (key f)
  end.
Proof.
  destruct f as [sf | sf | | sf mf ef], g as [sg | sg | | sg mg eg];
    try destruct sf; try destruct sg; cbn; auto; try (repeat split; lia).
  - destruct (Z.compare_spec ef eg) as [He | He | He].
    + change (Pos.compare_cont Eq mf mg) with (Pos.compare mf mg).
      destruct (Pos.compare_spec mf mg) as [Hm | Hm | Hm]; cbn; repeat split; try lia.
      subst. reflexivity.
    + repeat split; lia.
    + repeat split; lia.
  - destruct (Z.compare_spec ef eg) as [He | He | He].
    + change (Pos.compare_cont Eq mf mg) with (Pos.compare mf mg).
      destruct (Pos.compare_spec mf mg) as [Hm | Hm | Hm]; cbn; repeat split; try lia.
      subst. reflexivity.
    + repeat split; lia.
    + repeat split; lia.
Qed.

Lemma SFltb_key (f g : spec_float) :
  SFltb f g = true <->
  is_nan_sf f = false /\ is_nan_sf g = false /\ key_lt (key f) (key g).
Proof.
  unfold SFltb. pose proof (SFcompare_key f g) as H.
  destruct (SFcompare f g) as [[ | | ] | ].
  - split; [discriminate |]. intros (_ & _ & Hlt). destruct H as (_ & _ & Heq).
    rewrite Heq in Hlt. unfold key_lt in Hlt. destruct (key g) as [[? ?] ?]. lia.
  - split; auto.
  - split; [discriminate |]. intros (_ & _ & Hlt). destruct H as (_ & _ & Hgt).
    unfold key_lt in *. destruct (key f) as [[? ?] ?], (key g) as [[? ?] ?]. lia.
  - split; [discriminate |]. intros (Hf & Hg & _). destruct H; congruence.
Qed.

Lemma SFleb_key (f g : spec_float) :
  SFleb f g = true <->
  is_nan_sf f = false /\ is_nan_sf g = false /\ key_le (key f) (key g).
Proof.
  unfold SFleb. pose proof (SFcompare_key f g) as H.
  destruct (SFcompare f g) as [[ | | ] | ].
  - split; auto. intros _. destruct H as (Hf & Hg & Heq). repeat split; auto.
    rewrite Heq. unfold key_le. destruct (key g) as [[? ?] ?]. lia.
  - split; auto. intros _. destruct H as (Hf & Hg & Hlt). repeat split; auto.
    unfold key_lt, key_le in *. destruct (key f) as [[? ?] ?], (key g) as [[? ?] ?]. lia.
  - split; [discriminate |]. intros (_ & _ & Hle). destruct H as (_ & _ & Hgt).
    unfold key_lt, key_le in *. destruct (key f) as [[? ?] ?], (key g) as [[? ?] ?]. lia.
  - split; [discriminate |]. intros (Hf & Hg & _). destruct H; congruence.
Qed.

Lemma ltb_key (a b : float) :
  (a <? b)%float = true <->
  is_nan_sf (Prim2SF a) = false /\ is_nan_sf (Prim2SF b) = false /\
  key_lt (key (Prim2SF a)) (key (Prim2SF b)).
Proof. rewrite FloatAxioms.ltb_spec. apply SFltb_key. Qed.

Lemma leb_key (a b : float) :
  (a <=? b)%float = true <->
  is_nan_sf (Prim2SF a) = false /\ is_nan_sf (Prim2SF b) = false /\
  key_le (key (Prim2SF a)) (key (Prim2SF b)).
Proof. rewrite FloatAxioms.leb_spec. apply SFleb_key. Qed.

Ltac keys :=
  unfold key_lt, key_le in *;
  repeat match goal with
         | |- context [key ?f] => destruct (key f) as [[? ?] ?]
         | H : context [key ?f] |- _ => destruct (key f) as [[? ?] ?]
         end.

Lemma ltb_irrefl (a : float) : (a <? a)%float = false.
Proof.
  destruct (a <? a)%float eqn:H; [| reflexivity].
  apply ltb_key in H. destruct H as (_ & _ & H). keys. lia.
Qed.

Lemma ltb_trans (a b c : float) :
  (a <? b)%float = true -> (b <? c)%float = true -> (a <? c)%float = true.
Proof.
  intros H1 H2. apply ltb_key in H1, H2. apply ltb_key.
  destruct H1 as (Ha & Hb & H1), H2 as (_ & Hc & H2).
  repeat split; auto. keys. lia.
Qed.

Lemma ltb_asym (a b : float) :
  (a <? b)%float = true -> (b <? a)%float = false.
Proof.
  intros H1. destruct (b <? a)%float eqn:H2; [| reflexivity].
  pose proof (ltb_trans _ _ _ H1 H2) as H. rewrite ltb_irrefl in H. discriminate.
Qed.

Lemma ltb_not_leb (a b : float) :
  (a <? b)%float = true -> (b <=? a)%float = false.
Proof.
  intros H1. destruct (b <=? a)%float eqn:H2; [| reflexivity].
  apply ltb_key in H1. apply leb_key in H2.
  destruct H1 as (_ & _ & H1), H2 as (_ & _ & H2). keys. lia.
Qed.

Lemma ltb_leb (a b : float) :
  (a <? b)%float = true -> (a <=? b)%float = true.
Proof.
  intros H1. apply ltb_key in H1. apply leb_key.
  destruct H1 as (Ha & Hb & H1). repeat split; auto. keys. lia.
Qed.

Lemma below_bound_not_leb (a b c : float) :
  (a <? b)%float = true -> (c <? b)%float = false -> (c <=? a)%float = false.
Proof.
  intros H1 H2. destruct (c <=? a)%float eqn:H3; [| reflexivity].
  assert (H : (c <? b)%float = true); [| congruence].
  apply ltb_key in H1. apply leb_key in H3. apply ltb_key.
  destruct H1 as (Ha & Hb & H1), H3 as (Hc & _ & H3).
  repeat split; auto. keys. lia.
Qed.

Lemma leb_ltb_trans (a b c : float) :
  (a <=? b)%float = true -> (b <? c)%float = true -> (a <? c)%float = true.
Proof.
  intros H1 H2. apply leb_key in H1. apply ltb_key in H2. apply ltb_key.
  destruct H1 as (Ha & Hb & H1), H2 as (_ & Hc & H2).
  repeat split; auto. keys. lia.
Qed.

Lemma abs_zero (u c : float) :
  (abs u <? c)%float = true -> (zero <? abs u)%float = false -> abs u = zero.
Proof.
  intros Hc Hz. rewrite FloatAxioms.ltb_spec in Hc, Hz. rewrite FloatAxioms.abs_spec in Hc, Hz.
  apply Prim2SF_inj. rewrite FloatAxioms.abs_spec.
  change (Prim2SF zero) with (S754_zero false) in *.
  destruct (Prim2SF u) as [s | s | | s m e]; cbn in *; try discriminate.
  reflexivity.
Qed.

Lemma is_nan_key (x : float) : is_nan_sf (Prim2SF x) = is_nan x.
Proof.
  unfold Prim2SF. destruct (is_nan x); [reflexivity|].
  destruct (PrimFloat.is_zero x); [reflexivity|].
  destruct (is_infinity x); [reflexivity|].
  destruct (Z.frexp x) as [r e].
  destruct (shr_fexp _ _ _ _ _) as [shr e'].
  destruct (shr_m shr); reflexivity.
Qed.

Lemma ltb_not_nan (a b : float) :
  (a <? b)%float = true -> is_nan a = false /\ is_nan b = false.
Proof.
  intro H1. apply ltb_key in H1. rewrite !is_nan_key in H1.
  destruct H1 as (Ha & Hb & _). split; assumption.
Qed.

Lemma not_ltb_leb (a b : float) :
  is_nan a = false -> is_nan b = false ->
  (a <? b)%float = false -> (b <=? a)%float = true.
Proof.
  intros Ha Hb H1. apply leb_key. rewrite !is_nan_key.
  split; [exact Hb|]. split; [exact Ha|].
  assert (H2 : ~ key_lt (key (Prim2SF a)) (key (Prim2SF b))).
  { intro Hlt. assert (H : (a <? b)%float = true); [|congruence].
    apply ltb_key. rewrite !is_nan_key. auto. }
  keys. lia.
Qed.

Lemma not_leb_ltb (a b : float) :
  is_nan a = false -> is_nan b = false ->
  (a <=? b)%float = false -> (b <? a)%float = true.
Proof.
  intros Ha Hb H1. apply ltb_key. rewrite !is_nan_key.
  split; [exact Hb|]. split; [exact Ha|].
  assert (H2 : ~ key_le (key (Prim2SF a)) (key (Prim2SF b))).
  { intro Hle. assert (H : (a <=? b)%float = true); [|congruence].
    apply leb_key. rewrite !is_nan_key. auto. }
  keys. lia.
Qed.

(** A finite number less itself is +0. *)
Lemma sub_diag_finite (x : float) :
  is_nan x = false -> is_infinity x = false -> (x - x)%float = zero.
Proof.
  intros Hnan Hinf. apply Prim2SF_inj. rewrite FloatAxioms.sub_spec.
  change (Prim2SF zero) with (S754_zero false).
  unfold SF64sub.
  assert (Hx : match Prim2SF x with
               | S754_zero _ | S754_finite _ _ _ => True
               | _ => False end).
  { unfold Prim2SF. rewrite Hnan. destruct (PrimFloat.is_zero x); [exact I|].
    rewrite Hinf. destruct (Z.frexp x) as [r e].
    destruct (shr_fexp _ _ _ _ _) as [shr e'].
    destruct (shr_m shr); exact I. }
  destruct (Prim2SF x) as [s | s | | s m e]; try contradiction.
  - destruct s; reflexivity.
  - cbn [SFsub]. rewrite Z.sub_diag. reflexivity.
Qed.

End Binary64OrderFacts.

(** ** The hover hit test, on the machine's numbers *)

Section HitTestBinary64.

Import Binary64OrderFacts.

Variable step_x : float.
Variable mouse_x : Z.

Local Abbreviation dist := (Spec.distance (F:=float) step_x mouse_x).

Lemma closest_from_step_binary64 n i index min_dist :
  closest_from (F:=float) (S n) i step_x mouse_x index min_dist =
  if (dist i <? min_dist)%float
  then closest_from n (i + 1) step_x mouse_x i (dist i)
  else closest_from n (i + 1) step_x mouse_x index min_dist.
Proof. reflexivity. Qed.

(** The scan from sample [i] over [n] samples: the distance kept is the one
    it started with or one below it, and no distance scanned is below it;
    either nothing replaced the start, or the index kept is that of the
    distance kept, which no distance scanned before it is below or equal
    to. *)
Lemma closest_from_binary64 n : forall i index min_dist,
  let r := closest_from (F:=float) n i step_x mouse_x index min_dist in
  (snd r = min_dist \/ (snd r <? min_dist)%float = true) /\
  (forall j, i <= j < i + Z.of_nat n -> (dist j <? snd r)%float = false) /\
  (r = (index, min_dist) \/
   (i <= fst r < i + Z.of_nat n /\
    snd r = dist (fst r) /\
    (snd r <? min_dist)%float = true /\
    forall j, i <= j < fst r -> (dist j <=? snd r)%float = false)).
Proof.
  induction n as [|n IH]; intros i index min_dist.
  - cbn [closest_from snd fst]. split; [left; reflexivity|].
    split; [intros j Hj; lia | left; reflexivity].
  - rewrite closest_from_step_binary64. rewrite Nat2Z.inj_succ.
    destruct (dist i <? min_dist)%float eqn:E.
    + specialize (IH (i + 1) i (dist i)). cbv zeta in IH |- *.
      set (r := closest_from n (i + 1) step_x mouse_x i (dist i)) in *.
      destruct IH as (Hle & Hall & Hcase).
      assert (Hlt : (snd r <? min_dist)%float = true).
      { destruct Hle as [-> | Hle]; [exact E | exact (ltb_trans _ _ _ Hle E)]. }
      split; [right; exact Hlt|].
      split.
      * intros j Hj. destruct (Z.eq_dec j i) as [-> | Hne]; [|apply Hall; lia].
        destruct Hle as [-> | Hle]; [apply ltb_irrefl | apply ltb_asym, Hle].
      * right. destruct Hcase as [Hr | (Hidx & Hsnd & Hbelow & Hfirst)].
        -- rewrite Hr in Hlt |- *. cbn [fst snd] in *.
           split; [lia|]. split; [reflexivity|]. split; [exact Hlt|].
           intros j Hj; lia.
        -- split; [lia|]. split; [exact Hsnd|]. split; [exact Hlt|].
           intros j Hj. destruct (Z.eq_dec j i) as [-> | Hne];
             [apply ltb_not_leb, Hbelow | apply Hfirst; lia].
    + specialize (IH (i + 1) index min_dist). cbv zeta in IH |- *.
      set (r := closest_from n (i + 1) step_x mouse_x index min_dist) in *.
      destruct IH as (Hle & Hall & Hcase).
      split; [exact Hle|].
      split.
      * intros j Hj. destruct (Z.eq_dec j i) as [-> | Hne]; [|apply Hall; lia].
        destruct Hle as [-> | Hle]; [exact E|].
        destruct (dist i <? snd r)%float eqn:E'; [|reflexivity].
        rewrite (ltb_trans _ _ _ E' Hle) in E. discriminate.
      * destruct Hcase as [Hr | (Hidx & Hsnd & Hbelow & Hfirst)];
          [left; exact Hr|].
        right. split; [lia|]. split; [exact Hsnd|]. split; [exact Hbelow|].
        intros j Hj. destruct (Z.eq_dec j i) as [-> | Hne];
          [exact (below_bound_not_leb _ _ _ Hbelow E) | apply Hfirst; lia].
Qed.

Variable size : nat.

Local Abbreviation found := (closest_index (F:=float) size step_x mouse_x).

(** The whole scan: no index, when no distance is below 9999; or the index
    of a distance below 9999 that no distance is below and that no distance
    of a smaller index is below or equal to. *)
Lemma closest_index_binary64 :
  (found = (-1, of_int 9999) /\
   forall j, 0 <= j < Z.of_nat size -> (dist j <? of_int 9999)%float = false) \/
  (0 <= fst found < Z.of_nat size /\
   snd found = dist (fst found) /\
   (snd found <? of_int 9999)%float = true /\
   (forall j, 0 <= j < Z.of_nat size -> (dist j <? snd found)%float = false) /\
   (forall j, 0 <= j < fst found -> (dist j <=? snd found)%float = false)).
Proof.
  pose proof (closest_from_binary64 size 0 (-1) (of_int 9999)) as Hscan.
  cbv zeta in Hscan. unfold closest_index.
  set (r := closest_from size 0 step_x mouse_x (-1) (of_int 9999)) in *.
  destruct Hscan as (_ & Hall & [Hr | (Hidx & Hsnd & Hlt & Hfirst)]).
  - left. split; [exact Hr|]. intros j Hj. specialize (Hall j ltac:(lia)).
    rewrite Hr in Hall. exact Hall.
  - right. split; [lia|]. split; [exact Hsnd|]. split; [exact Hlt|].
    split; [intros j Hj; apply Hall; lia | exact Hfirst].
Qed.

(** A pointer at the computed position of a sample, a finite number, is at
    the computed distance 0 of it. *)
Lemma distance_at_sample i :
  point_x step_x i = of_int mouse_x ->
  is_nan (of_int mouse_x) = false -> is_infinity (of_int mouse_x) = false ->
  dist i = 0%float.
Proof.
  intros Hat Hnan Hinf. unfold Spec.distance. rewrite Hat.
  cbn [dabs dsub binary64]. rewrite (sub_diag_finite _ Hnan Hinf).
  reflexivity.
Qed.

End HitTestBinary64.

Section HoverBinary64.

Import Binary64OrderFacts.

Variable cairo_text_extents : bool -> Z -> string -> float * float.


End HoverBinary64.



(** ** The tooltip box, on the exact numbers *)

Lemma scale_max_fold hist : forall m,
  m <= fold_left (fun m val => if m <? val then val else m) hist m /\
  Forall (fun v => v <= fold_left (fun m val => if m <? val then val else m) hist m)
         hist.
Proof.
  induction hist as [|v rest IH]; intro m; cbn [fold_left].
  - split; [lia | constructor].
  - destruct (IH (if m <? v then v else m)) as [Hm Hrest].
    destruct (Z.ltb_spec m v); (split; [lia | constructor; [lia | exact Hrest]]).
Qed.

(** No sample is above the scale, which is at least 100. *)
Lemma scale_max_bounds hist :
  100 <= scale_max hist /\ forall n, nth n hist 0 <= scale_max hist.
Proof.
  unfold scale_max.
  destruct (scale_max_fold hist 0) as [H0 Hall].
  set (m := fold_left _ hist 0) in *.
  assert (Hle : m <= if m <? 100 then 100 else m)
    by (destruct (Z.ltb_spec m 100); lia).
  split; [destruct (Z.ltb_spec m 100); lia|].
  intro n. destruct (nth_in_or_default n hist 0) as [Hin | ->]; [|lia].
  rewrite Forall_forall in Hall. specialize (Hall _ Hin). lia.
Qed.

Lemma tooltip_box_exact (width : Z) (x y box_w box_h : Q) :
  let box := tooltip_box width x y box_w box_h in
  ((x <= inject_Z (width - 20))%Q ->
   (fst box + box_w <= inject_Z (width - 20))%Q) /\
  ((20 <= snd box)%Q \/ snd box = (y + 10)%Q).
Proof.
  unfold tooltip_box, margin_y. exact_ops. cbn [fst snd].
  change (inject_Z 10) with 10%Q. change (inject_Z 20) with 20%Q.
  split.
  - intro Hx.
    destruct (Exact.lt (inject_Z (width - 20)) (x + 10 + box_w)) eqn:E.
    + lra.
    + apply lt_false in E. exact E.
  - destruct (Exact.lt (y - 10 - box_h) 20) eqn:E.
    + right. reflexivity.
    + left. apply lt_false in E. exact E.
Qed.

Section TooltipExact.

Variable cairo_text_extents : bool -> Z -> string -> Q * Q.

(** A point that snaps lies on the plot: the step is positive and the
    index is one of the samples. *)
Lemma snapped_point_on_plot width hist mouse_x :
  (2 <= length hist)%nat ->
  let step_x := step_of (F:=Q) width hist in
  let found := closest_index (length hist) step_x mouse_x in
  snaps step_x found = true ->
  0 <= fst found < Z.of_nat (length hist) /\
  (point_x step_x (fst found) <= inject_Z (width - 20))%Q.
Proof.
  intros Hsize step_x found Hsnap.
  apply snaps_iff in Hsnap. destruct Hsnap as [Hnonneg Hlt].
  destruct (closest_index_cases step_x mouse_x (length hist))
    as [Hnone | [Hidx Hsnd]].
  - fold found in Hnone. rewrite Hnone in Hnonneg. cbn [fst] in Hnonneg. lia.
  - fold found in Hidx, Hsnd. split; [exact Hidx|].
    pose proof (distance_nonneg step_x mouse_x (fst found)) as Hge.
    rewrite <- Hsnd in Hge.
    assert (Htol : (0 < step_x / lit 15 10)%Q)
      by (eapply Qle_lt_trans; eassumption).
    assert (Hstep : (0 <= step_x)%Q).
    { unfold lit in Htol. exact_ops.
      destruct (Qlt_le_dec step_x 0) as [Hneg | Hpos]; [|exact Hpos].
      exfalso. apply (Qlt_irrefl 0). eapply Qlt_trans; [exact Htol|].
      apply Qlt_shift_div_r; [reflexivity | lra]. }
    set (last_index := Z.of_nat (length hist) - 1).
    assert (Hlast : (inject_Z last_index * step_x == graph_w width)%Q).
    { unfold step_x, step_of, step_divisor. fold last_index. exact_ops.
      rewrite Qmult_div_r; [reflexivity|].
      intro Hz. unfold Qeq in Hz. simpl in Hz. unfold last_index in Hz. lia. }
    assert (Hle : (inject_Z (fst found) * step_x <= inject_Z last_index * step_x)%Q).
    { apply Qmult_le_compat_r; [|exact Hstep].
      rewrite <- Zle_Qle. unfold last_index. lia. }
    unfold point_x, margin_x. unfold graph_w, margin_x in Hlast. exact_ops.
    unfold Z.sub. rewrite inject_Z_plus, inject_Z_opp.
    change (inject_Z 40) with 40%Q in *. change (inject_Z 20) with 20%Q in *.
    set (a := (inject_Z (fst found) * step_x)%Q) in *.
    set (b := (inject_Z last_index * step_x)%Q) in *.
    lra.
Qed.

Lemma point_y_below_top height hist n :
  40 <= height ->
  (20 <= point_y (F:=Q) height (scale_max hist) (nth n hist 0%Z))%Q.
Proof.
  intro Hheight.
  destruct (scale_max_bounds hist) as [Hscale Hall]. specialize (Hall n).
  unfold point_y, graph_h. unfold margin_y. exact_ops.
  set (v := inject_Z (nth n hist 0)). set (m := inject_Z (scale_max hist)).
  assert (Hm : (0 < m)%Q)
    by (unfold m; change 0%Q with (inject_Z 0); rewrite <- Zlt_Qlt; lia).
  assert (Hv : (v <= m)%Q) by (unfold v, m; rewrite <- Zle_Qle; exact Hall).
  assert (Hratio : (v / m <= 1)%Q) by (apply Qle_shift_div_r; [exact Hm | lra]).
  assert (Hh : (0 <= inject_Z height - inject_Z 2 * inject_Z 20)%Q).
  { rewrite Zle_Qle in Hheight. change (inject_Z 40) with 40%Q in Hheight.
    change (inject_Z 2) with 2%Q. change (inject_Z 20) with 20%Q. lra. }
  set (h := (inject_Z height - inject_Z 2 * inject_Z 20)%Q) in *.
  assert (Hprod : (v / m * h <= 1 * h)%Q)
    by (apply Qmult_le_compat_r; assumption).
  set (p := (v / m * h)%Q) in *.
  change (inject_Z 20) with 20%Q. lra.
Qed.

Lemma point_y_in_canvas height hist n :
  10 <= height -> 0 <= nth n hist 0 ->
  (-10 <= point_y (F:=Q) height (scale_max hist) (nth n hist 0%Z))%Q.
Proof.
  intros Hheight Hsample.
  destruct (scale_max_bounds hist) as [Hscale Hall]. specialize (Hall n).
  destruct (Z_le_gt_dec 40 height) as [Htall | Hshort].
  - pose proof (point_y_below_top height hist n Htall). lra.
  - unfold point_y, graph_h. unfold margin_y. exact_ops.
    set (v := inject_Z (nth n hist 0)). set (m := inject_Z (scale_max hist)).
    assert (Hm : (0 < m)%Q)
      by (unfold m; change 0%Q with (inject_Z 0); rewrite <- Zlt_Qlt; lia).
    assert (Hv : (0 <= v)%Q)
      by (unfold v; change 0%Q with (inject_Z 0); rewrite <- Zle_Qle; exact Hsample).
    assert (Hratio : (0 <= v / m)%Q) by (apply Qle_shift_div_l; [exact Hm | lra]).
    assert (Hh : (inject_Z height - inject_Z 2 * inject_Z 20 <= 0)%Q).
    { assert (Hlt : height <= 40) by lia. rewrite Zle_Qle in Hlt.
      change (inject_Z 40) with 40%Q in Hlt.
      change (inject_Z 2) with 2%Q. change (inject_Z 20) with 20%Q. lra. }
    assert (Hlow : (10 <= inject_Z height)%Q)
      by (rewrite Zle_Qle in Hheight; exact Hheight).
    set (h := (inject_Z height - inject_Z 2 * inject_Z 20)%Q) in *.
    assert (Hprod : (v / m * h <= 0)%Q).
    { setoid_replace (v / m * h)%Q with (- (v / m * - h))%Q by ring.
      assert (0 <= v / m * - h)%Q by (apply Qmult_le_0_compat; lra). lra. }
    assert (Hhd : (h == inject_Z height - 40)%Q)
      by (unfold h; change (inject_Z 2) with 2%Q; change (inject_Z 20) with 20%Q; ring).
    set (p := (v / m * h)%Q) in *.
    change (inject_Z 20) with 20%Q. change (inject_Z 10) with 10%Q in Hlow. lra.
Qed.

End TooltipExact.

(** The renderer draws one rectangle at most, the tooltip box of the
    overlay. *)
Ltac no_rectangle H :=
  cbn [In] in H;
  repeat (destruct H as [H | H]; [discriminate H|]);
  contradiction H.

Section Rectangle.

Context {F : Type} `{Double F}.
Variable cairo_text_extents : bool -> Z -> string -> F * F.

Lemma line_path_no_rectangle height max_val step_x hist x y w h : forall i,
  ~ In (cairo_rectangle x y w h) (line_path height max_val step_x i hist).
Proof.
  induction hist as [|val rest IH]; intros i Hin; cbn [line_path In] in Hin.
  - exact Hin.
  - destruct Hin as [Hin | Hin]; [|exact (IH _ Hin)].
    destruct (i =? 0); discriminate Hin.
Qed.

Lemma rectangle_in_overlay width height area hist x y w h :
  In (cairo_rectangle x y w h)
     (draw_series cairo_text_extents width height area hist) ->
  In (cairo_rectangle x y w h)
     (overlay cairo_text_extents width height (scale_max hist)
              (step_of width hist) area hist).
Proof.
  destruct hist as [|v rest]; [intros []|].
  unfold draw_series. rewrite !in_app_iff.
  intros [Hin | [Hin | [Hin | [Hin | [Hin | [Hin | [Hin | [Hin | Hin]]]]]]]].
  - no_rectangle Hin.
  - apply in_flat_map in Hin. destruct Hin as (i & _ & Hin).
    unfold grid_line in Hin.
    destruct (cairo_text_extents false 10 _) as [ext_width ext_height].
    no_rectangle Hin.
  - no_rectangle Hin.
  - exfalso. exact (line_path_no_rectangle _ _ _ _ _ _ _ _ _ Hin).
  - no_rectangle Hin.
  - unfold fill_gradient in Hin. no_rectangle Hin.
  - unfold value_label in Hin.
    destruct (is_live area && _); [|contradiction Hin].
    destruct (cairo_text_extents true 24 _) as [ext_width ext_height].
    no_rectangle Hin.
  - unfold value_label in Hin.
    destruct (is_live area && _); [|contradiction Hin].
    destruct (cairo_text_extents true 24 _) as [ext_width ext_height].
    no_rectangle Hin.
  - exact Hin.
Qed.

(** The rectangle of the overlay is the tooltip box of the point found. *)
Lemma overlay_rectangle width height max_val step_x area hist x y w h :
  In (cairo_rectangle x y w h)
     (overlay cairo_text_extents width height max_val step_x area hist) ->
  let found := closest_index (length hist) step_x (hover_mouse_x area) in
  let val := nth (Z.to_nat (fst found)) hist 0%Z in
  snaps step_x found = true /\
  (x, y) = tooltip_box width (point_x step_x (fst found))
                       (point_y height max_val val) w h.
Proof.
  intros Hin found val. unfold overlay in Hin.
  destruct (is_hovering area); [|contradiction Hin].
  fold found in Hin.
  destruct (snaps step_x found) eqn:Hsnap; [|contradiction Hin].
  fold val in Hin.
  destruct (cairo_text_extents false 10 _) as [ext_width ext_height].
  destruct (tooltip_box _ _ _ _ _) as [box_x box_y] eqn:Hbox.
  split; [reflexivity|].
  cbn [In] in Hin.
  repeat (destruct Hin as [Hin | Hin]; [discriminate Hin|]).
  destruct Hin as [Hin | Hin].
  - inversion Hin; subst. symmetry. exact Hbox.
  - repeat (destruct Hin as [Hin | Hin]; [discriminate Hin|]).
    contradiction Hin.
Qed.

End Rectangle.

Section TooltipPlacement.

Variable cairo_text_extents : bool -> Z -> string -> Q * Q.

(** C7, amended.  For every series of at least two samples, whatever the
    pointer and the extents of the text, the tooltip box the renderer draws
    stays left of the right margin of the plot, hence of the right edge of
    the canvas; it stays below the top margin on a canvas at least 40 high
    (a plot of non-negative height), and below the top edge on a canvas at
    least 10 high when the samples are not negative. *)
Theorem tooltip_box_placement
    (width height : Z) (area : Widget) (hist : list Z) (x y w h : Q) :
  (2 <= length hist)%nat ->
  In (cairo_rectangle x y w h)
     (draw_series cairo_text_extents width height area hist) ->
  (x + w <= inject_Z (width - 20))%Q /\
  (x + w <= inject_Z width)%Q /\
  (40 <= height -> (20 <= y)%Q) /\
  (10 <= height -> Forall (fun v => 0 <= v) hist -> (0 <= y)%Q).
Proof.
  intros Hsize Hin.
  apply rectangle_in_overlay, overlay_rectangle in Hin. cbv zeta in Hin.
  destruct Hin as [Hsnap Hbox].
  destruct (snapped_point_on_plot width hist (hover_mouse_x area) Hsize Hsnap)
    as [Hidx Hx].
  set (found := closest_index (length hist) (step_of width hist)
                              (hover_mouse_x area)) in *.
  set (n := Z.to_nat (fst found)) in *.
  pose proof (tooltip_box_exact width (point_x (step_of width hist) (fst found))
                (point_y height (scale_max hist) (nth n hist 0)) w h) as Hplace.
  cbv zeta in Hplace. rewrite <- Hbox in Hplace. cbn [fst snd] in Hplace.
  destruct Hplace as [Hright Htop]. specialize (Hright Hx).
  assert (Hedge : (inject_Z (width - 20) <= inject_Z width)%Q)
    by (rewrite <- Zle_Qle; lia).
  repeat match goal with |- _ /\ _ => split end.
  - exact Hright.
  - eapply Qle_trans; eassumption.
  - intro Hheight.
    pose proof (point_y_below_top height hist n Hheight) as Hy.
    destruct Htop as [Htop | ->]; lra.
  - intros Hheight Hsamples.
    assert (Hsample : 0 <= nth n hist 0).
    { destruct (nth_in_or_default n hist 0) as [Hmem | ->]; [|lia].
      rewrite Forall_forall in Hsamples. exact (Hsamples _ Hmem). }
    pose proof (point_y_in_canvas height hist n Hheight Hsample) as Hy.
    destruct Htop as [Htop | ->]; lra.
Qed.

End TooltipPlacement.

Lemma tooltip_box_placement_witness :
  ((1334 # 23) + 30 <= inject_Z (244 - 20))%Q /\ (20 <= 5200 # 100)%Q.
Proof.
  assert (Hsize : (2 <= length (repeat 0 24))%nat) by (simpl; lia).
  assert (Hin : In (@cairo_rectangle Q (1334 # 23) (5200 # 100) 30 18)%Q
                   (draw_series (F:=Q) fixed_extents 244 100
                      (hover_at (live_chart "CPU Load") 48) (repeat 0 24))).
  { vm_compute. repeat (first [left; reflexivity | right]). }
  destruct (tooltip_box_placement fixed_extents 244 100
              (hover_at (live_chart "CPU Load") 48) (repeat 0 24)
              (1334 # 23) (5200 # 100) 30%Q 18%Q Hsize Hin)
    as (Hright & _ & Htop & _).
  split; [exact Hright | apply Htop; lia].
Defined.

(** C7 does not hold as stated for every canvas size.  On a canvas 4 high
    the plot has a negative height and the marker of a sample 0 lies at the
    ordinate -16, above the canvas; the box does not fit above it and is
    put below it, at the ordinate -6: past the top edge.  The series is the
    CPU series at the start of the program. *)
Lemma tooltip_above_short_canvas :
  let area := hover_at (live_chart "CPU Load") 48 in
  let ops := on_draw_chart (F:=float) true fixed_extents initial_globals
                           area 244 4 in
  In (@cairo_rectangle float 58 (-6) 30 18)%float ops /\
  PrimFloat.ltb (-6) 0 = true /\
  In (@cairo_rectangle Q (1334 # 23) (-600 # 100) 30 18)%Q
     (on_draw_chart (F:=Q) true fixed_extents initial_globals area 244 4) /\
  (-600 # 100 < 0)%Q.
Proof.
  intros area ops.
  repeat match goal with |- _ /\ _ => split end.
  - vm_compute. repeat (first [left; reflexivity | right]).
  - vm_compute. reflexivity.
  - vm_compute. repeat (first [left; reflexivity | right]).
  - reflexivity.
Qed.

(** * Further properties of the code *)

(** ** The scale of the chart *)

Lemma fold_right_max_start (hist : list Z) : forall a b,
  fold_right Z.max (Z.max a b) hist = Z.max b (fold_right Z.max a hist).
Proof.
  induction hist as [|v rest IH]; intros a b; cbn [fold_right].
  - apply Z.max_comm.
  - rewrite IH. lia.
Qed.

Lemma scale_scan_max (hist : list Z) : forall m,
  fold_left (fun m val => if m <? val then val else m) hist m
  = fold_right Z.max m hist.
Proof.
  induction hist as [|v rest IH]; intro m; cbn [fold_left fold_right].
  - reflexivity.
  - rewrite IH.
    replace (if m <? v then v else m) with (Z.max m v)
      by (destruct (Z.ltb_spec m v); lia).
    apply fold_right_max_start.
Qed.

Lemma fold_right_max_member (hist : list Z) m :
  fold_right Z.max m hist = m \/ In (fold_right Z.max m hist) hist.
Proof.
  induction hist as [|v rest IH]; cbn [fold_right In].
  - left. reflexivity.
  - destruct (Z.max_spec v (fold_right Z.max m rest)) as [[_ ->] | [_ ->]].
    + destruct IH as [IH | IH]; [left; exact IH | right; right; exact IH].
    + right. left. reflexivity.
Qed.

Lemma scale_max_fold_right (hist : list Z) :
  scale_max hist = fold_right Z.max 100 hist.
Proof.
  unfold scale_max. rewrite scale_scan_max.
  replace (if fold_right Z.max 0 hist <? 100 then 100
           else fold_right Z.max 0 hist)
    with (Z.max 100 (fold_right Z.max 0 hist))
    by (destruct (Z.ltb_spec (fold_right Z.max 0 hist) 100); lia).
  rewrite <- fold_right_max_start. reflexivity.
Qed.

(** X1. The scale of a chart is the greatest of 100 and of the samples: it
    is never below 100, no sample is above it, and it is 100 or one of the
    samples. *)
Theorem scale_max_greatest (hist : list Z) :
  scale_max hist = fold_right Z.max 100 hist /\
  100 <= scale_max hist /\
  Forall (fun v => v <= scale_max hist) hist /\
  (scale_max hist = 100 \/ In (scale_max hist) hist).
Proof.
  pose proof (scale_max_fold_right hist) as Hmax.
  destruct (scale_max_bounds hist) as [Hscale Hall].
  repeat match goal with |- _ /\ _ => split end.
  - exact Hmax.
  - exact Hscale.
  - apply Forall_forall. intros v Hin.
    destruct (In_nth hist v 0 Hin) as (n & _ & <-). apply Hall.
  - rewrite Hmax. apply fold_right_max_member.
Qed.

(** ** The shape of the mock series *)

Lemma walk_steps_within fluct : forall previous,
  0 <= previous ->
  Forall (fun f => -20 <= f <= 20) fluct ->
  steps_within 20 previous (Spec.walk previous fluct).
Proof.
  induction fluct as [|f rest IH]; intros previous Hp Hf;
    cbn [Spec.walk steps_within].
  - exact I.
  - inversion Hf as [|? ? Hf1 Hrest]; subst.
    split; [lia | apply IH; [lia | exact Hrest]].
Qed.

Lemma steps_within_head bound previous values :
  steps_within bound previous values ->
  values = [] \/ Z.abs (hd 0 values - previous) <= bound.
Proof.
  destruct values as [|v rest]; [left; reflexivity|].
  intros [Hv _]. right. exact Hv.
Qed.

Lemma hd_rev_last (l : list Z) : hd 0 (rev l) = last l 0.
Proof.
  destruct l as [|x l'] using rev_ind; [reflexivity|].
  rewrite rev_app_distr, last_last. reflexivity.
Qed.

Section MockShape.

Context {F : Type} `{Double F}.
Variable char_signed : bool.

Lemma mock_history_rev city :
  let d := get_mock_data (F:=F) char_signed city in
  rev (history d) =
  Spec.walk (aqi d) (Spec.fluctuations 24 (Spec.hash char_signed city)).
Proof.
  intro d. unfold d. rewrite mock_history_walk.
  unfold Spec.insert_each_at_front.
  rewrite insert_each_at_front_rev, app_nil_r. apply rev_involutive.
Qed.

(** X2. The mock series is a smooth one.  Read from its last sample to its
    first, every sample is within 20 of the one before, and the last sample
    is within 20 of the AQI shown; every sample lies between 0 and 829, so
    the scale of a mock chart is between 100 and 829. *)
Theorem mock_series_shape (city : string) :
  let d := get_mock_data (F:=F) char_signed city in
  steps_within 20 (aqi d) (rev (history d)) /\
  Z.abs (last (history d) 0 - aqi d) <= 20 /\
  Forall (fun v => 0 <= v <= 829) (history d) /\
  100 <= scale_max (history d) <= 829.
Proof.
  intro d.
  pose proof (mock_aqi_spec (F:=F) char_signed city) as Haqi. fold d in Haqi.
  assert (Hrange : 50 <= aqi d <= 349)
    by (rewrite Haqi;
        pose proof (Z.mod_pos_bound (hash_loop char_signed city 0) 300
                      ltac:(lia)); lia).
  pose proof (mock_history_rev city) as Hrev. cbv zeta in Hrev. fold d in Hrev.
  set (fluct := Spec.fluctuations 24 (Spec.hash char_signed city)) in *.
  assert (Hfluct : Forall (fun f => -20 <= f <= 20) fluct)
    by apply fluctuations_range.
  assert (Hsteps : steps_within 20 (aqi d) (rev (history d)))
    by (rewrite Hrev; apply walk_steps_within; [lia | exact Hfluct]).
  assert (Hall : Forall (fun v => 0 <= v <= 829) (history d)).
  { rewrite <- (rev_involutive (history d)). apply Forall_rev. rewrite Hrev.
    pose proof (walk_bounds fluct (aqi d) 349 ltac:(lia) Hfluct) as Hb.
    eapply Forall_impl; [|exact Hb]. cbn beta. intros v Hv.
    unfold fluct in Hv. rewrite fluctuations_length in Hv. lia. }
  repeat match goal with |- _ /\ _ => split end.
  - exact Hsteps.
  - destruct (steps_within_head _ _ _ Hsteps) as [Hnil | Hhead].
    + apply (f_equal (@length Z)) in Hnil. unfold d in Hnil.
      rewrite length_rev, mock_history_length in Hnil. discriminate Hnil.
    + rewrite hd_rev_last in Hhead. exact Hhead.
  - exact Hall.
  - exact (proj1 (scale_max_bounds (history d))).
  - rewrite scale_max_fold_right.
    destruct (fold_right_max_member (history d) 100) as [-> | Hin]; [lia|].
    rewrite Forall_forall in Hall. apply (Hall _ Hin).
Qed.

End MockShape.

(** ** The signedness of [char] *)

(** X3. For a name made of ASCII characters (bytes below 128) the record of
    the mock generator is the same on a platform where plain [char] is
    signed and on one where it is not. *)
Theorem mock_data_char_signedness {F} `{Double F} (name : string) :
  Forall (fun c => (N_of_ascii c < 128)%N) (list_ascii_of_string name) ->
  get_mock_data (F:=F) true name = get_mock_data (F:=F) false name.
Proof.
  intro Hascii. unfold get_mock_data.
  rewrite (hash_loop_ascii name 0 Hascii). reflexivity.
Qed.

Lemma mock_data_char_signedness_witness :
  get_mock_data (F:=float) true "New Delhi"
  = get_mock_data (F:=float) false "New Delhi".
Proof.
  apply mock_data_char_signedness.
  cbn [list_ascii_of_string].
  repeat (constructor; [reflexivity|]). constructor.
Defined.

(** ** The window of the live series *)

Section TickWindow.

Context {F : Type} `{Double F}.
Variable Env : Type.
Variable platform : Platform F Env.
Variable builder : Builder.

Lemma push_sample_at_capacity h v :
  length h = 24%nat -> push_sample h v = tl h ++ [v].
Proof. intro Hlen. unfold push_sample. rewrite Hlen. reflexivity. Qed.

Lemma skipn_window (h : list Z) v rest n :
  h <> [] -> skipn (S n) (h ++ v :: rest) = skipn n ((tl h ++ [v]) ++ rest).
Proof.
  intro Hne. destruct h as [|x h0]; [contradiction|].
  cbn [app skipn tl]. rewrite <- app_assoc. reflexivity.
Qed.

Lemma on_live_tick_env g e :
  snd (fst (fst (on_live_tick Env platform builder g e))) =
  snd (GetNetworkUsage platform
         (snd (GetMemoryUsage platform (snd (GetCPULoad platform e))))).
Proof.
  unfold on_live_tick.
  destruct (GetCPULoad platform e) as [cpu_load e1]. cbn [snd].
  destruct (GetMemoryUsage platform e1) as [mem_usage e2]. cbn [snd].
  destruct (GetNetworkUsage platform e2) as [net_usage e3].
  reflexivity.
Qed.

Lemma samples_of_ticks_succ n e :
  samples_of_ticks Env platform (S n) e =
  tick_samples Env platform e ::
  samples_of_ticks Env platform n
    (snd (GetNetworkUsage platform
            (snd (GetMemoryUsage platform (snd (GetCPULoad platform e)))))).
Proof.
  cbn [samples_of_ticks].
  destruct (GetCPULoad platform e) as [cpu_load e1]. cbn [snd].
  destruct (GetMemoryUsage platform e1) as [mem_usage e2]. cbn [snd].
  destruct (GetNetworkUsage platform e2) as [net_usage e3].
  reflexivity.
Qed.

Lemma run_ticks_succ n g e :
  run_ticks Env platform builder (S n) g e =
  run_ticks Env platform builder n
    (fst (fst (fst (on_live_tick Env platform builder g e))))
    (snd (fst (fst (on_live_tick Env platform builder g e)))).
Proof.
  cbn [run_ticks].
  destruct (on_live_tick Env platform builder g e) as [[[g' e'] draws] again].
  reflexivity.
Qed.

(** X4. Ticks slide a window over the samples.  When the three live series
    hold 24 samples, after [n] ticks each series is the series before
    followed by the [n] samples read, less its first [n] elements: the 24
    latest values.  After 24 ticks or more nothing is left of the series
    before.  The ticks count in [live_tick] and leave the selected city
    alone. *)
Theorem live_series_window (n : nat) : forall (g : Globals F) (e : Env),
  length (history_cpu g) = 24%nat ->
  length (history_mem g) = 24%nat ->
  length (history_net g) = 24%nat ->
  let g' := fst (run_ticks Env platform builder n g e) in
  let samples := samples_of_ticks Env platform n e in
  let cpu := map (fun s => fst (fst s)) samples in
  let mem := map (fun s => snd (fst s)) samples in
  let net := map (fun s => snd s) samples in
  history_cpu g' = skipn n (history_cpu g ++ cpu) /\
  history_mem g' = skipn n (history_mem g ++ mem) /\
  history_net g' = skipn n (history_net g ++ net) /\
  length samples = n /\
  ((24 <= n)%nat ->
   history_cpu g' = skipn (n - 24) cpu /\
   history_mem g' = skipn (n - 24) mem /\
   history_net g' = skipn (n - 24) net) /\
  live_tick g' = live_tick g + Z.of_nat n /\
  current_aqi_data g' = current_aqi_data g.
Proof.
  assert (Hmain : forall (g : Globals F) (e : Env),
    length (history_cpu g) = 24%nat ->
    length (history_mem g) = 24%nat ->
    length (history_net g) = 24%nat ->
    let g' := fst (run_ticks Env platform builder n g e) in
    let samples := samples_of_ticks Env platform n e in
    history_cpu g' = skipn n (history_cpu g ++ map (fun s => fst (fst s)) samples) /\
    history_mem g' = skipn n (history_mem g ++ map (fun s => snd (fst s)) samples) /\
    history_net g' = skipn n (history_net g ++ map (fun s => snd s) samples) /\
    length samples = n /\
    live_tick g' = live_tick g + Z.of_nat n /\
    current_aqi_data g' = current_aqi_data g).
  { induction n as [|n IH]; intros g e Hc Hm Hn.
    - cbn [run_ticks samples_of_ticks fst map skipn]. rewrite !app_nil_r.
      repeat split. lia.
    - cbv zeta. rewrite run_ticks_succ, samples_of_ticks_succ, on_live_tick_env.
      pose proof (on_live_tick_globals Env platform builder g e) as Ht.
      cbv zeta in Ht.
      destruct (tick_samples Env platform e) as [[c m] t].
      destruct Ht as (Ec & Em & En & Ecur & Etick).
      set (g1 := fst (fst (fst (on_live_tick Env platform builder g e)))) in *.
      set (e1 := snd (GetNetworkUsage platform _)).
      rewrite (push_sample_at_capacity _ _ Hc) in Ec.
      rewrite (push_sample_at_capacity _ _ Hm) in Em.
      rewrite (push_sample_at_capacity _ _ Hn) in En.
      assert (Hne : forall h : list Z, length h = 24%nat -> h <> [])
        by (intros h Hh ->; discriminate Hh).
      assert (Hl : forall (h : list Z) v, length h = 24%nat ->
                     length (tl h ++ [v]) = 24%nat).
      { intros h v Hh. destruct h; [discriminate Hh|].
        rewrite length_app. cbn [tl length] in *. lia. }
      specialize (IH g1 e1).
      rewrite Ec, Em, En in IH.
      specialize (IH (Hl _ c Hc) (Hl _ m Hm) (Hl _ t Hn)). cbv zeta in IH.
      destruct IH as (Ic & Im & In' & Ilen & Itick & Icur).
      cbn [map fst snd length].
      rewrite !skipn_window by (apply Hne; assumption).
      repeat split; try assumption.
      + rewrite Ilen. reflexivity.
      + rewrite Itick, Etick. lia.
      + rewrite Icur. exact Ecur. }
  intros g e Hc Hm Hn. cbv zeta.
  destruct (Hmain g e Hc Hm Hn) as (Ic & Im & In' & Ilen & Itick & Icur).
  repeat match goal with |- _ /\ _ => split end; try assumption.
  intro Hfull.
  assert (Hskip : forall h l : list Z, length h = 24%nat ->
            skipn n (h ++ l) = skipn (n - 24) l).
  { intros h l Hh. rewrite skipn_app, Hh.
    rewrite skipn_all2 by lia. reflexivity. }
  rewrite Ic, Im, In', !Hskip by assumption. repeat split.
Qed.

End TickWindow.

Lemma live_series_window_witness :
  history_cpu (fst (run_ticks (F:=float) Z iso_platform every_widget 3
                              initial_globals 1))
  = skipn 3 (repeat 0 24 ++
             map (fun s => fst (fst s))
                 (samples_of_ticks (F:=float) Z iso_platform 3 1)).
Proof.
  exact (proj1 (live_series_window Z iso_platform every_widget 3
                  initial_globals 1 eq_refl eq_refl eq_refl)).
Defined.

(** ** The live charts of the portable platform *)

Lemma push_sample_Forall (P : Z -> Prop) h v :
  Forall P h -> P v -> Forall P (push_sample h v).
Proof.
  intros Hh Hv. unfold push_sample. apply Forall_app. split.
  - destruct (24 <=? length h)%nat; [|exact Hh].
    destruct h as [|x rest]; [constructor|].
    inversion Hh; subst. assumption.
  - constructor; [exact Hv | constructor].
Qed.

Lemma scale_max_low hist :
  Forall (fun v => v <= 100) hist -> scale_max hist = 100.
Proof.
  intro Hall. rewrite scale_max_fold_right.
  induction Hall as [|v rest Hv _ IH]; cbn [fold_right]; [reflexivity|].
  rewrite IH. lia.
Qed.

Section PortableRun.

Context {F : Type} `{Double F}.
Variable RandState : Type.
Variable rand : RandState -> Z * RandState.
Variable RAND_MAX : Z.
Variable builder : Builder.

(** [rand] returns a value between 0 and [RAND_MAX]. *)
Hypothesis rand_range : forall e, 0 <= fst (rand e) <= RAND_MAX.

(** The cast [(int)] of a small integer held in a [double] gives it back. *)
Hypothesis trunc_small : forall v, 0 <= v <= 99 -> trunc (of_int v) = v.

Local Abbreviation platform := (Portable.platform (F:=F) RandState rand).

Lemma portable_tick_samples e :
  let '(cpu, mem, net) := tick_samples RandState platform e in
  0 <= cpu <= 99 /\ mem = 50 /\ 0 <= net <= 99.
Proof.
  unfold tick_samples, Portable.platform.
  cbn [GetCPULoad GetMemoryUsage GetNetworkUsage].
  unfold Portable.GetCPULoad, Portable.GetMemoryUsage, Portable.GetNetworkUsage.
  pose proof (rand_range e) as Hr1.
  destruct (rand e) as [r1 e1]. cbn [fst] in Hr1.
  pose proof (rand_range e1) as Hr2.
  destruct (rand e1) as [r2 e2]. cbn [fst] in Hr2.
  pose proof (rem_100_range r1 ltac:(lia)) as H1.
  pose proof (rem_100_range r2 ltac:(lia)) as H2.
  rewrite !trunc_small by lia. lia.
Qed.

Lemma portable_tick_ranges g e :
  portable_ranges g ->
  portable_ranges (fst (fst (fst (on_live_tick RandState platform builder g e)))).
Proof.
  intros (Hc & Hm & Hn).
  pose proof (on_live_tick_globals RandState platform builder g e) as Ht.
  pose proof (portable_tick_samples e) as Hs.
  cbv zeta in Ht.
  destruct (tick_samples RandState platform e) as [[cpu mem] net].
  destruct Ht as (Ec & Em & En & _). destruct Hs as (Hcpu & Hmem & Hnet).
  unfold portable_ranges. rewrite Ec, Em, En.
  repeat split; apply push_sample_Forall; try assumption.
  right. exact Hmem.
Qed.

Lemma portable_run_ranges n : forall g e,
  portable_ranges g ->
  portable_ranges (fst (run_ticks RandState platform builder n g e)).
Proof.
  induction n as [|n IH]; intros g e Hg.
  - exact Hg.
  - rewrite run_ticks_succ. apply IH, portable_tick_ranges, Hg.
Qed.

(** X5. Without the Windows counters, whatever [rand] returns and however
    long the timer runs from the start of the program, every sample of the
    CPU and network series lies in [0, 99] and every sample of the memory
    series is 0 (the initial filling) or 50; so the three live charts always
    have the scale 100. *)
Theorem portable_live_charts (n : nat) (e : RandState) :
  let g := fst (run_ticks RandState platform builder n initial_globals e) in
  Forall (fun v => 0 <= v <= 99) (history_cpu g) /\
  Forall (fun v => v = 0 \/ v = 50) (history_mem g) /\
  Forall (fun v => 0 <= v <= 99) (history_net g) /\
  scale_max (history_cpu g) = 100 /\
  scale_max (history_mem g) = 100 /\
  scale_max (history_net g) = 100.
Proof.
  intro g.
  assert (Hstart : portable_ranges (F:=F) initial_globals).
  { unfold portable_ranges, initial_globals.
    cbn [history_cpu history_mem history_net].
    repeat split; apply Forall_forall; intros v Hin;
      apply repeat_spec in Hin; lia. }
  destruct (portable_run_ranges n initial_globals e Hstart) as (Hc & Hm & Hn).
  fold g in Hc, Hm, Hn.
  repeat match goal with |- _ /\ _ => split end; try assumption;
    apply scale_max_low; eapply Forall_impl; try eassumption;
    cbn beta; intros; lia.
Qed.

End PortableRun.

Lemma portable_live_charts_witness :
  scale_max (history_cpu
               (fst (run_ticks (F:=float) Z iso_platform every_widget 40
                               initial_globals 1))) = 100.
Proof.
  exact (proj1 (proj2 (proj2 (proj2
           (portable_live_charts Z Portable.iso_rand 32767 every_widget
              iso_rand_range trunc_of_int_binary64 40%nat 1))))).
Defined.

(** ** The texts of a chart *)

Section ChartTexts.

Context {F : Type} `{Double F}.
Variable cairo_text_extents : bool -> Z -> string -> F * F.

Lemma shown_texts_app (a b : list (cairo_op F)) :
  shown_texts (a ++ b) = shown_texts a ++ shown_texts b.
Proof. unfold shown_texts. apply flat_map_app. Qed.

Lemma grid_line_text width height max_val i :
  shown_texts (grid_line cairo_text_extents width height max_val i)
  = [format_int (grid_label_value max_val i)].
Proof.
  unfold grid_line.
  destruct (cairo_text_extents false 10 _) as [ext_width ext_height].
  reflexivity.
Qed.

Lemma line_path_no_text height max_val step_x hist : forall i,
  shown_texts (line_path (F:=F) height max_val step_x i hist) = [].
Proof.
  induction hist as [|val rest IH]; intro i; cbn [line_path].
  - reflexivity.
  - change (?op :: ?l) with ([op] ++ l). rewrite shown_texts_app, IH.
    destruct (i =? 0); reflexivity.
Qed.

Lemma value_label_text width area hist network_unit :
  hist <> [] ->
  shown_texts (value_label cairo_text_extents width area hist network_unit)
  = if is_live area then [live_label_text area hist network_unit] else [].
Proof.
  intro Hne. unfold value_label, live_label_text.
  destruct hist as [|v rest]; [contradiction|].
  destruct (is_live area); cbn [andb negb]; [|reflexivity].
  destruct (cairo_text_extents true 24 _) as [ext_width ext_height].
  reflexivity.
Qed.

Lemma overlay_text width height max_val step_x area hist :
  let found := closest_index (length hist) step_x (hover_mouse_x area) in
  shown_texts (overlay cairo_text_extents width height max_val step_x area hist)
  = if is_hovering area && snaps step_x found
    then [(format_int (nth (Z.to_nat (fst found)) hist 0)
           ++ tooltip_unit area)%string]
    else [].
Proof.
  intro found. unfold overlay. fold found.
  destruct (is_hovering area); [|reflexivity].
  destruct (snaps step_x found); [|reflexivity]. cbn [andb].
  destruct (cairo_text_extents false 10 _) as [ext_width ext_height].
  destruct (tooltip_box _ _ _ _ _) as [box_x box_y].
  reflexivity.
Qed.

(** The parts of the chart of a series that has samples. *)
Lemma draw_series_parts width height area hist :
  hist <> [] ->
  draw_series cairo_text_extents width height area hist =
  [ cairo_set_source_rgb (lit 95 100) (lit 95 100) (lit 95 100);
    cairo_paint;
    cairo_set_line_width (of_int 1);
    cairo_select_font_face "Sans" false;
    cairo_set_font_size 10 ]
  ++ flat_map (grid_line cairo_text_extents width height (scale_max hist))
              [0; 1; 2; 3; 4]%Z
  ++ [ cairo_set_source_rgb (lit 2 10) (lit 6 10) (of_int 1);
       cairo_set_line_width (of_int 3) ]
  ++ line_path height (scale_max hist) (step_of width hist) 0 hist
  ++ [ cairo_stroke_preserve ]
  ++ fill_gradient width height
  ++ value_label cairo_text_extents width area hist " MB/s"
  ++ value_label cairo_text_extents width area hist " Mbps"
  ++ overlay cairo_text_extents width height (scale_max hist)
             (step_of width hist) area hist.
Proof.
  intro Hne. destruct hist as [|v rest]; [contradiction | reflexivity].
Qed.

(** Below [INT_MAX / 4] the product of a grid label does not wrap. *)
Lemma grid_label_value_small max_val i :
  0 <= max_val <= 536870911 -> 0 <= i <= 4 ->
  grid_label_value max_val i = Z.quot (max_val * i) 4.
Proof.
  intros Hmax Hi. unfold grid_label_value, uint32, int_of_uint.
  unfold UINT_MODULUS, INT_MAX.
  assert (Hprod : 0 <= max_val * i <= 2147483644) by nia.
  rewrite Z.mod_small by lia.
  destruct (Z.leb_spec (max_val * i) (2 ^ 31 - 1)) as [_ | Hgt];
    [reflexivity | lia].
Qed.

(** X6. The texts a chart shows, in their order: the five labels of the
    grid, [max_val * i / 4] for [i] from 0 to 4 with the product taken in
    32-bit [int]; on a live chart the current value, twice, the second over
    the first, with "%" for a CPU or memory type and, for a network type,
    with " MB/s" the first time and " Mbps" the second; and the value of
    the hovered sample when a point snaps.  There is no other text.  For a
    scale of at most 536870911 ([INT_MAX / 4]) the product does not wrap and
    the labels of the grid go from 0 to the scale by quarters (integer
    division). *)
Theorem chart_texts (width height : Z) (area : Widget) (hist : list Z) :
  hist <> [] ->
  let max_val := scale_max hist in
  let step_x := step_of width hist in
  let found := closest_index (length hist) step_x (hover_mouse_x area) in
  let grid_labels :=
    map (fun i => format_int (grid_label_value max_val i)) [0; 1; 2; 3; 4] in
  shown_texts (draw_series cairo_text_extents width height area hist) =
  grid_labels
  ++ (if is_live area
      then [live_label_text area hist " MB/s";
            live_label_text area hist " Mbps"]
      else [])
  ++ (if is_hovering area && snaps step_x found
      then [(format_int (nth (Z.to_nat (fst found)) hist 0)
             ++ tooltip_unit area)%string]
      else []) /\
  (max_val <= 536870911 ->
   grid_labels =
   [format_int 0; format_int (Z.quot max_val 4);
    format_int (Z.quot (max_val * 2) 4); format_int (Z.quot (max_val * 3) 4);
    format_int max_val]).
Proof.
  intros Hne max_val step_x found grid_labels. split.
  - rewrite (draw_series_parts _ _ _ _ Hne). fold max_val step_x.
    cbn [flat_map]. rewrite !shown_texts_app.
    rewrite !grid_line_text, line_path_no_text.
    rewrite !(value_label_text _ _ _ _ Hne).
    pose proof (overlay_text width height max_val step_x area hist) as Hov.
    cbv zeta in Hov. fold found in Hov. rewrite Hov.
    unfold grid_labels.
    cbn [shown_texts flat_map app map]. unfold fill_gradient.
    cbn [flat_map app].
    destruct (is_live area); reflexivity.
  - intro Hsmall.
    assert (Hlow : 100 <= max_val).
    { unfold max_val, scale_max.
      destruct (Z.ltb_spec (fold_left (fun m val => if m <? val then val else m)
                              hist 0) 100); lia. }
    unfold grid_labels. cbn [map].
    rewrite !grid_label_value_small by lia.
    rewrite Z.mul_0_r, Z.mul_1_r.
    replace (Z.quot (max_val * 4) 4) with max_val
      by (symmetry; apply Z.quot_mul; lia).
    reflexivity.
Qed.

End ChartTexts.

Lemma chart_texts_witness :
  shown_texts (draw_series (F:=float) fixed_extents 244 100
                 (hover_at (live_chart "Network Traffic") 48) (repeat 7 24))
  = ["0"; "25"; "50"; "75"; "100"; "7 MB/s"; "7 Mbps"; "7 Mbps"]%string.
Proof.
  assert (Hne : repeat 7 24 <> []) by discriminate.
  etransitivity.
  - exact (proj1 (chart_texts fixed_extents 244 100
             (hover_at (live_chart "Network Traffic") 48) (repeat 7 24) Hne)).
  - vm_compute. reflexivity.
Defined.

(** The labels of the grid on a scale above [INT_MAX / 4]: the products
    [max_val * 2], [max_val * 3] and [max_val * 4] wrap. *)
Example grid_labels_wrap :
  shown_texts (draw_series (F:=float) fixed_extents 244 100
                 (city_chart "Delhi") [1073741824; 5])
  = ["0"; "268435456"; "-536870912"; "-268435456"; "0"]%string.
Proof. vm_compute. reflexivity. Qed.

(** ** The line of a chart *)

Section LinePath.

Context {F : Type} `{Double F}.

Lemma line_path_points height max_val (step_x : F) hist : forall i,
  path_points (line_path height max_val step_x i hist) =
  match hist with
  | [] => []
  | val :: rest =>
      (point_x step_x i, point_y height max_val val)
        :: path_points (line_path height max_val step_x (i + 1) rest)
  end.
Proof.
  intro i. destruct hist as [|val rest]; [reflexivity|].
  cbn [line_path]. destruct (i =? 0); reflexivity.
Qed.

Lemma line_path_points_length height max_val (step_x : F) hist : forall i,
  length (path_points (line_path height max_val step_x i hist)) = length hist.
Proof.
  induction hist as [|val rest IH]; intro i; rewrite line_path_points.
  - reflexivity.
  - cbn [length]. now rewrite IH.
Qed.

Lemma line_path_points_nth height max_val (step_x : F) default hist :
  forall i k, (k < length hist)%nat ->
  nth k (path_points (line_path height max_val step_x i hist)) default
  = (point_x step_x (i + Z.of_nat k), point_y height max_val (nth k hist 0)).
Proof.
  induction hist as [|val rest IH]; intros i k Hk; [cbn in Hk; lia|].
  rewrite line_path_points. destruct k as [|k]; cbn [nth].
  - rewrite Z.add_0_r. reflexivity.
  - rewrite IH by (cbn [length] in Hk; lia).
    rewrite Nat2Z.inj_succ. f_equal. f_equal. lia.
Qed.

Lemma line_path_length height max_val (step_x : F) hist : forall i,
  length (line_path height max_val step_x i hist) = length hist.
Proof.
  induction hist as [|val rest IH]; intro i; cbn [line_path length];
    [reflexivity | now rewrite IH].
Qed.

(** After the first point, lines only. *)
Lemma line_path_lines height max_val (step_x : F) hist : forall i,
  0 < i ->
  Forall (fun op => exists x y, op = cairo_line_to x y)
         (line_path height max_val step_x i hist).
Proof.
  induction hist as [|val rest IH]; intros i Hi; cbn [line_path].
  - constructor.
  - constructor; [|apply IH; lia].
    destruct (Z.eqb_spec i 0); [lia|]. eauto.
Qed.

(** X7. The line of a chart, whatever the arithmetic of [double]: it has
    one point for each sample, in their order; the first is moved to, the
    others are drawn to; the point of sample [k] is at
    [margin_x + k * step_x] across and at the height of the sample on the
    scale. *)
Theorem line_points_in_order (height max_val : Z) (step_x : F) (hist : list Z) :
  hist <> [] ->
  let ops := line_path height max_val step_x 0 hist in
  let points := path_points ops in
  length ops = length hist /\
  length points = length hist /\
  (exists rest,
     ops = cairo_move_to (point_x step_x 0)
                         (point_y height max_val (hd 0 hist)) :: rest /\
     Forall (fun op => exists x y, op = cairo_line_to x y) rest) /\
  (forall default k, (k < length hist)%nat ->
     nth k points default =
     (point_x step_x (Z.of_nat k), point_y height max_val (nth k hist 0))).
Proof.
  intros Hne ops points.
  split; [apply line_path_length|].
  split; [apply line_path_points_length|].
  split.
  - unfold ops. destruct hist as [|v rest]; [contradiction|].
    cbn [line_path hd]. change (0 =? 0) with true. cbv iota.
    eexists. split; [reflexivity|]. apply line_path_lines. lia.
  - intros default k Hk. unfold points, ops.
    rewrite line_path_points_nth by exact Hk. reflexivity.
Qed.

End LinePath.

Lemma line_points_in_order_witness :
  length (line_path (F:=float) 100 (scale_max [10; 60; 130])
                    (step_of 244 [10; 60; 130]) 0 [10; 60; 130]) = 3%nat.
Proof.
  assert (Hne : [10; 60; 130] <> []) by discriminate.
  exact (proj1 (line_points_in_order (F:=float) 100 (scale_max [10; 60; 130])
                  (step_of 244 [10; 60; 130]) [10; 60; 130] Hne)).
Defined.

(** On the machine's numbers the positions are rounded: on a canvas 248
    wide the last of 24 points is at 228.00000000000003 (one unit in the
    last place above 228), right of the right margin at
    [width - 20 = 228]. *)
Example line_end_rounding_binary64 :
  let hist := repeat 0 24 in
  let points :=
    path_points (line_path (F:=float) 100 (scale_max hist)
                           (step_of 248 hist) 0 hist) in
  fst (nth 23 points (0, 0)%float) = 0x1.c800000000001p+7%float /\
  (of_int (248 - 20) <? fst (nth 23 points (0, 0)%float))%D = true.
Proof. vm_compute. split; reflexivity. Qed.

(** ** The type of a live chart *)

Lemma prefix_app_l a : forall b s,
  String.prefix (a ++ b) s = true -> String.prefix a s = true.
Proof.
  induction a as [|c a IH]; intros b s Hp; cbn [String.append] in Hp.
  - destruct s; reflexivity.
  - destruct s as [|c' s]; cbn [String.prefix] in Hp |- *; [discriminate|].
    destruct (ascii_dec c c'); [apply (IH b), Hp | discriminate].
Qed.

Lemma strstr_app_l haystack a b :
  strstr haystack (a ++ b) = true -> strstr haystack a = true.
Proof.
  induction haystack as [|c rest IH]; cbn [strstr]; intro Hs.
  - rewrite orb_false_r in Hs |- *. apply (prefix_app_l a b), Hs.
  - apply orb_true_iff in Hs. apply orb_true_iff.
    destruct Hs as [Hs | Hs];
      [left; apply (prefix_app_l a b), Hs | right; apply IH, Hs].
Qed.

Section LiveType.

Context {F : Type} `{Double F}.
Variable char_signed : bool.

Lemma shown_series_live g area :
  is_live area = true ->
  shown_series (F:=F) char_signed g area =
  let type := match live_type area with
              | Some t => t
              | None => "Unknown"%string
              end in
  if strstr type "CPU" then history_cpu g
  else if strstr type "Mem" then history_mem g
  else history_net g.
Proof.
  intro Hlive. unfold shown_series, select_data. rewrite Hlive. reflexivity.
Qed.

(** X8. The series and the unit of a live chart go by substrings of its
    type.  A type with "CPU" shows the CPU series; without "CPU", a type
    with "Mem" shows the memory series; any other type, and a live chart
    without a type, shows the network series.  A percent sign, in the label
    or in the tooltip, is never put on the network series; a live chart
    without a type has no unit.  The three charts set up at activation show
    each its own series, the CPU and memory ones with "%", the network one
    with " Mbps" in the tooltip. *)
Theorem live_type_dispatch (g : Globals F) (area : Widget) :
  is_live area = true ->
  let series := shown_series char_signed g area in
  let type := live_type area in
  (type_has type "CPU" = true -> series = history_cpu g) /\
  (type_has type "CPU" = false -> type_has type "Mem" = true ->
   series = history_mem g) /\
  (type_has type "CPU" = false -> type_has type "Mem" = false ->
   series = history_net g /\ tooltip_unit area <> "%"%string /\
   forall hist,
     live_label_text area hist " MB/s"
       <> (format_int (last hist 0) ++ "%")%string /\
     live_label_text area hist " Mbps"
       <> (format_int (last hist 0) ++ "%")%string) /\
  (type = None ->
   series = history_net g /\ tooltip_unit area = ""%string /\
   forall hist network_unit,
     live_label_text area hist network_unit = format_int (last hist 0)) /\
  (forall id t, In (id, t) live_charts ->
     type = Some t ->
     series = (if String.eqb id "chart_live_cpu" then history_cpu g
               else if String.eqb id "chart_live_mem" then history_mem g
               else history_net g) /\
     tooltip_unit area =
       (if String.eqb id "chart_live_net" then " Mbps" else "%")%string).
Proof.
  intros Hlive series type.
  pose proof (shown_series_live g area Hlive) as Hs. cbv zeta in Hs.
  fold series in Hs.
  assert (Hmem : type_has type "Memory" = true -> type_has type "Mem" = true).
  { unfold type_has. destruct type as [t|]; [|discriminate].
    apply (strstr_app_l t "Mem" "ory"). }
  split; [|split; [|split; [|split]]].
  - unfold type_has, type in *. destruct (live_type area) as [t|];
      [|discriminate]. intro Hc. rewrite Hs, Hc. reflexivity.
  - unfold type_has, type in *. destruct (live_type area) as [t|];
      [|discriminate]. intros Hc Hm. rewrite Hs, Hc, Hm. reflexivity.
  - intros Hc Hm.
    assert (Hmemory : type_has type "Memory" = false).
    { destruct (type_has type "Memory") eqn:Em; [|reflexivity].
      rewrite (Hmem eq_refl) in Hm. discriminate Hm. }
    split; [|split].
    + unfold type_has, type in *. destruct (live_type area) as [t|].
      * rewrite Hs, Hc, Hm. reflexivity.
      * rewrite Hs. reflexivity.
    + unfold tooltip_unit. rewrite Hlive. fold type.
      rewrite Hc, Hmemory.
      destruct (type_has type "Network"); discriminate.
    + intro hist. unfold live_label_text. fold type.
      rewrite Hc, Hmemory. cbn [orb].
      assert (Hcancel : forall s a b : string,
                (s ++ a)%string = (s ++ b)%string -> a = b).
      { induction s as [|c s IH]; cbn [String.append]; intros a b Heq;
          [exact Heq | injection Heq as Heq; apply IH, Heq]. }
      assert (Hbare : forall s : string, s <> (s ++ "%")%string).
      { induction s as [|c s IH]; cbn [String.append]; intro Heq;
          [discriminate | injection Heq as Heq; apply IH, Heq]. }
      destruct (type_has type "Network").
      * split; intro Heq; apply Hcancel in Heq; discriminate Heq.
      * split; apply Hbare.
  - intro Hnone. unfold type in Hnone. split; [|split].
    + rewrite Hs, Hnone. reflexivity.
    + unfold tooltip_unit. rewrite Hlive, Hnone. reflexivity.
    + intros hist network_unit. unfold live_label_text.
      rewrite Hnone. reflexivity.
  - intros id t Hin Ht. unfold type in Ht.
    unfold live_charts in Hin. cbn [In] in Hin.
    destruct Hin as [E | [E | [E | []]]]; injection E as <- <-;
      (split; [rewrite Hs, Ht; reflexivity
              | unfold tooltip_unit; rewrite Hlive, Ht; reflexivity]).
Qed.

End LiveType.

Lemma live_type_dispatch_witness :
  shown_series (F:=float) true initial_globals (live_chart "CPU Load")
  = history_cpu (F:=float) initial_globals.
Proof.
  exact (proj1 (live_type_dispatch true initial_globals
                  (live_chart "CPU Load") eq_refl) eq_refl).
Defined.

(** ** The pointer over a chart *)

Section Hover.

Context {F : Type} `{Double F}.
Variable char_signed : bool.
Variable cairo_text_extents : bool -> Z -> string -> F * F.

Lemma overlay_unhovered width height max_val step_x area hist :
  is_hovering area = false ->
  overlay cairo_text_extents width height max_val step_x area hist = [].
Proof. intro Hh. unfold overlay. rewrite Hh. reflexivity. Qed.

Lemma overlay_of_no_sample width height max_val step_x area :
  overlay cairo_text_extents width height max_val step_x area [] = [].
Proof. unfold overlay. destruct (is_hovering area); reflexivity. Qed.

Lemma draw_series_leave width height area hist :
  draw_series cairo_text_extents width height area hist =
  draw_series cairo_text_extents width height (on_chart_leave area) hist
  ++ overlay cairo_text_extents width height (scale_max hist)
             (step_of width hist) area hist.
Proof.
  destruct hist as [|v rest].
  - rewrite overlay_of_no_sample. reflexivity.
  - unfold draw_series.
    rewrite (overlay_unhovered _ _ _ _ (on_chart_leave area)) by reflexivity.
    rewrite app_nil_r. rewrite <- !app_assoc. reflexivity.
Qed.

(** X9. The overlay of the pointer is drawn over the chart and changes
    nothing beneath: the calls for an area, hovered or not, are those for
    the same area after the pointer has left, followed by those of the
    overlay.  After the pointer has left there is no overlay, whatever
    position was stored, and the chart is as before the pointer came. *)
Theorem hover_overlay_on_top
    (g : Globals F) (area : Widget) (width height : Z) (x y : F) :
  let hist := shown_series char_signed g area in
  let draw := on_draw_chart char_signed cairo_text_extents g in
  draw area width height =
  draw (on_chart_leave area) width height
  ++ overlay cairo_text_extents width height (scale_max hist)
             (step_of width hist) area hist /\
  overlay cairo_text_extents width height (scale_max hist)
          (step_of width hist) (on_chart_leave area) hist = [] /\
  draw (on_chart_leave (on_chart_motion area x y)) width height =
  draw (on_chart_leave area) width height.
Proof.
  intros hist draw. unfold draw.
  rewrite !on_draw_chart_shown.
  assert (Hsame : forall a, shown_series char_signed g (on_chart_leave a)
                            = shown_series char_signed g a) by reflexivity.
  assert (Hmotion : shown_series char_signed g (on_chart_motion area x y)
                    = shown_series char_signed g area) by reflexivity.
  rewrite !Hsame, Hmotion. fold hist.
  split; [apply draw_series_leave|].
  split; [apply overlay_unhovered; reflexivity|].
  rewrite (draw_series_leave width height
             (on_chart_leave (on_chart_motion area x y)) hist).
  rewrite (draw_series_leave width height (on_chart_leave area) hist).
  rewrite !overlay_unhovered by reflexivity. reflexivity.
Qed.

End Hover.

(** ** The charts of the fixed cities *)

Lemma on_activate_area_unhovered id widget controller :
  on_activate_area id = Some (widget, controller) ->
  is_hovering widget = false /\ hover_x widget = 0.
Proof.
  unfold on_activate_area.
  destruct (String.eqb id "chart_area_current");
    [intro E; injection E as <- <-; split; reflexivity|].
  destruct (String.eqb id "chart_area_delhi");
    [intro E; injection E as <- <-; split; reflexivity|].
  destruct (String.eqb id "chart_area_mumbai");
    [intro E; injection E as <- <-; split; reflexivity|].
  destruct (find _ live_charts) as [cfg|]; [|discriminate].
  intro E; injection E as <- <-; split; reflexivity.
Qed.

Section CityCharts.

Context {F : Type} `{Double F}.
Variable char_signed : bool.
Variable cairo_text_extents : bool -> Z -> string -> F * F.

(** X10. An area set up without a motion controller, as those of New Delhi
    and Mumbai are, stays as it was set up: it is never hovered.  Its chart
    has no overlay and is the same whatever the globals: it changes with
    the size of the canvas only. *)
Theorem city_chart_static (id : string) (initial widget : Widget)
    (g1 g2 : Globals F) (width height : Z) :
  on_activate_area id = Some (initial, false) ->
  area_state (F:=F) id widget ->
  widget = initial /\
  is_hovering widget = false /\
  (is_live initial = false -> city_name initial <> None ->
   on_draw_chart char_signed cairo_text_extents g1 widget width height =
   on_draw_chart char_signed cairo_text_extents g2 initial width height /\
   overlay cairo_text_extents width height
           (scale_max (shown_series char_signed g1 widget))
           (step_of width (shown_series char_signed g1 widget))
           widget (shown_series char_signed g1 widget) = []).
Proof.
  intros Hinit Hstate.
  assert (Hw : widget = initial).
  { induction Hstate as [w c Hact | w0 w x y Hact _ _ | w0 w Hact _ _];
      rewrite Hinit in Hact; [injection Hact as <- _; reflexivity | | ];
      discriminate Hact. }
  subst widget.
  destruct (on_activate_area_unhovered id initial false Hinit) as [Hh _].
  split; [reflexivity|]. split; [exact Hh|].
  intros Hlive Hcity. split.
  - destruct (city_name initial) as [name|] eqn:Ename; [|contradiction].
    unfold on_draw_chart, select_data. rewrite Hlive, Ename. reflexivity.
  - apply overlay_unhovered, Hh.
Qed.

End CityCharts.

Lemma city_chart_static_witness :
  on_draw_chart (F:=float) true fixed_extents initial_globals
                (city_chart "New Delhi") 300 200 =
  on_draw_chart (F:=float) true fixed_extents
                (fst (run_ticks Z iso_platform every_widget 3 initial_globals 1))
                (city_chart "New Delhi") 300 200.
Proof.
  assert (Hact : on_activate_area "chart_area_delhi"
                 = Some (city_chart "New Delhi", false)) by reflexivity.
  assert (Hstate : area_state (F:=float) "chart_area_delhi"
                              (city_chart "New Delhi"))
    by (eapply area_activated; exact Hact).
  destruct (city_chart_static true fixed_extents "chart_area_delhi"
              (city_chart "New Delhi") (city_chart "New Delhi")
              initial_globals
              (fst (run_ticks Z iso_platform every_widget 3 initial_globals 1))
              300 200 Hact Hstate) as (_ & _ & Hdraw).
  apply Hdraw; [reflexivity | discriminate].
Defined.

(** ** The timer and the fetch button together *)

Section TickAndFetch.

Context {F : Type} `{Double F}.
Variable char_signed : bool.
Variable Env : Type.
Variable platform : Platform F Env.

(** X11. The timer and the fetch button do not interfere: a tick leaves the
    record of the selected city untouched and a click leaves the three live
    series and the tick count untouched, so a tick followed by a click
    gives the same globals as the click followed by the tick, and each asks
    for the same redraws either way. *)
Theorem tick_and_fetch_commute
    (builder : Builder) (selected : string) (g : Globals F) (e : Env) :
  let tick g := on_live_tick Env platform builder g e in
  let fetch g := on_fetch_aqi_clicked char_signed builder selected g in
  let tick_globals g := fst (fst (fst (tick g))) in
  current_aqi_data (tick_globals g) = current_aqi_data g /\
  history_cpu (fst (fetch g)) = history_cpu g /\
  history_mem (fst (fetch g)) = history_mem g /\
  history_net (fst (fetch g)) = history_net g /\
  live_tick (fst (fetch g)) = live_tick g /\
  fst (fetch (tick_globals g)) = tick_globals (fst (fetch g)) /\
  snd (fetch (tick_globals g)) = snd (fetch g) /\
  snd (fst (tick (fst (fetch g)))) = snd (fst (tick g)) /\
  snd (tick g) = true.
Proof.
  intros tick fetch tick_globals.
  unfold tick_globals, tick, fetch, on_live_tick, on_fetch_aqi_clicked.
  destruct (GetCPULoad platform e) as [cpu_load e1].
  destruct (GetMemoryUsage platform e1) as [mem_usage e2].
  destruct (GetNetworkUsage platform e2) as [net_usage e3].
  destruct (negb (builder "city_dropdown"%string)
            || negb (builder "aqi_result_box"%string));
    cbn [fst snd current_aqi_data history_cpu history_mem history_net live_tick];
    repeat split.
Qed.

End TickAndFetch.

(** ** The result box of the fetch button *)

Lemma css_after_app widget classes ops1 ops2 :
  css_after widget classes (ops1 ++ ops2)
  = css_after widget (css_after widget classes ops1) ops2.
Proof. unfold css_after. apply fold_left_app. Qed.

Lemma css_after_label widget classes builder id label text :
  css_after widget classes
            (on_present builder id [gtk_label_set_text label text]) = classes.
Proof. unfold on_present. destruct (builder id); reflexivity. Qed.

Lemma css_after_draw widget classes builder id target :
  css_after widget classes
            (on_present builder id [gtk_widget_queue_draw target]) = classes.
Proof. unfold on_present. destruct (builder id); reflexivity. Qed.

Lemma remove_aqi_classes (classes : list string) :
  filter (fun c' => negb (String.eqb c' "aqi-bad"))
    (filter (fun c' => negb (String.eqb c' "aqi-ok"))
       (filter (fun c' => negb (String.eqb c' "aqi-good")) classes))
  = filter not_aqi_class classes.
Proof.
  induction classes as [|c rest IH]; [reflexivity|].
  cbn [filter]. unfold not_aqi_class at 1. cbn [existsb aqi_css_classes].
  destruct (String.eqb c "aqi-good"); cbn [negb orb filter]; [exact IH|].
  destruct (String.eqb c "aqi-ok"); cbn [negb orb filter]; [exact IH|].
  destruct (String.eqb c "aqi-bad"); cbn [negb orb filter]; [exact IH|].
  now rewrite IH.
Qed.

Lemma status_css_class_cases a :
  In (status_css_class a) aqi_css_classes /\
  not_aqi_class (status_css_class a) = false.
Proof.
  unfold status_css_class.
  destruct (a <=? 50); [split; [cbn; tauto | reflexivity]|].
  destruct (a <=? 100); split; cbn; tauto.
Qed.

Section FetchResult.

Context {F : Type} `{Double F}.
Variable format_1f : F -> string.
Variable char_signed : bool.

Lemma status_classes_after builder (d : AirQualityData F) classes :
  builder "lbl_aqi_status"%string = true ->
  css_after "lbl_aqi_status" classes (show_aqi_data format_1f builder d)
  = filter not_aqi_class classes ++ [status_css_class (aqi d)].
Proof.
  intro Hstatus. unfold show_aqi_data.
  rewrite !css_after_app, !css_after_label, css_after_draw.
  unfold on_present at 1. rewrite Hstatus.
  unfold css_after. cbn [fold_left css_step].
  change (String.eqb "lbl_aqi_status" "lbl_aqi_status") with true. cbv iota.
  rewrite remove_aqi_classes.
  destruct (existsb (String.eqb (status_css_class (aqi d)))
                    (filter not_aqi_class classes)) eqn:E; [|reflexivity].
  exfalso. apply existsb_exists in E. destruct E as (c & Hin & Heq).
  apply String.eqb_eq in Heq. subst c.
  apply filter_In in Hin. destruct Hin as [_ Hnot].
  rewrite (proj2 (status_css_class_cases (aqi d))) in Hnot. discriminate Hnot.
Qed.

(** X12. After a click on the fetch button the status label holds exactly
    one of the three classes "aqi-good", "aqi-ok" and "aqi-bad", the one of
    the AQI fetched, whatever classes it held before (those of earlier
    clicks included); its other classes are kept, in their order, and no
    class is held twice. *)
Theorem status_class_exclusive
    (builder : Builder) (selected : string) (classes : list string) :
  builder "city_dropdown"%string = true ->
  builder "aqi_result_box"%string = true ->
  builder "lbl_aqi_status"%string = true ->
  let d := get_mock_data (F:=F) char_signed selected in
  let after :=
    css_after "lbl_aqi_status" classes
              (on_fetch_aqi_clicked_ui format_1f char_signed builder selected) in
  after = filter not_aqi_class classes ++ [status_css_class (aqi d)] /\
  (forall c, In c aqi_css_classes ->
     (In c after <-> c = status_css_class (aqi d))) /\
  (forall c, ~ In c aqi_css_classes -> (In c after <-> In c classes)) /\
  (NoDup classes -> NoDup after).
Proof.
  intros Hdrop Hbox Hstatus d after.
  assert (Hafter : after = filter not_aqi_class classes
                           ++ [status_css_class (aqi d)]).
  { unfold after, on_fetch_aqi_clicked_ui. rewrite Hdrop, Hbox. cbn [negb orb].
    apply status_classes_after, Hstatus. }
  destruct (status_css_class_cases (aqi d)) as [Hmember Hnot].
  assert (Hspec : forall c, not_aqi_class c = true <-> ~ In c aqi_css_classes).
  { intro c. unfold not_aqi_class. rewrite negb_true_iff.
    rewrite <- not_true_iff_false, existsb_exists. split.
    - intros Hn Hin. apply Hn. exists c. split; [exact Hin | apply String.eqb_refl].
    - intros Hn (c' & Hin & Heq). apply String.eqb_eq in Heq. subst c'.
      exact (Hn Hin). }
  split; [exact Hafter|]. rewrite Hafter. split; [|split].
  - intros c Hc. rewrite in_app_iff, filter_In. cbn [In]. split.
    + intros [[_ Hn] | [Heq | []]]; [|symmetry; exact Heq].
      apply Hspec in Hn. contradiction.
    + intros ->. right. left. reflexivity.
  - intros c Hc. rewrite in_app_iff, filter_In. cbn [In]. split.
    + intros [[Hin _] | [Heq | []]]; [exact Hin|].
      subst c. contradiction.
    + intro Hin. left. split; [exact Hin | apply Hspec, Hc].
  - intro Hnodup. apply NoDup_app.
    + apply NoDup_filter, Hnodup.
    + constructor; [intros [] | constructor].
    + intros c Hin [Heq | []]. subst c.
      apply filter_In in Hin. destruct Hin as [_ Hn].
      rewrite Hnot in Hn. discriminate Hn.
Qed.

End FetchResult.

Lemma status_class_exclusive_witness :
  css_after "lbl_aqi_status" ["stat-value"; "aqi-ok"]%string
    (on_fetch_aqi_clicked_ui (F:=float) (fun _ => "85.8"%string) true
                             every_widget "Mumbai")
  = ["stat-value"; "aqi-bad"]%string.
Proof.
  etransitivity.
  - exact (proj1 (status_class_exclusive (fun _ => "85.8"%string) true
                    every_widget "Mumbai" ["stat-value"; "aqi-ok"]%string
                    eq_refl eq_refl eq_refl)).
  - vm_compute. reflexivity.
Defined.

(** X13. The status, the advice and the class shown go together: two AQI
    values have the same advice exactly when they have the same status
    tier; the class is "aqi-good" for the tier Good, "aqi-ok" for
    Satisfactory and "aqi-bad" for the three tiers above. *)
Theorem advice_follows_tier (a b : Z) :
  (health_advice a = health_advice b <-> tier_of_aqi a = tier_of_aqi b) /\
  (tier_status (tier_of_aqi a) = tier_status (tier_of_aqi b)
   <-> tier_of_aqi a = tier_of_aqi b) /\
  (status_css_class a = "aqi-good"%string <-> tier_of_aqi a = Good) /\
  (status_css_class a = "aqi-ok"%string <-> tier_of_aqi a = Satisfactory) /\
  (status_css_class a = "aqi-bad"%string <->
   tier_of_aqi a = Moderate \/ tier_of_aqi a = Poor \/ tier_of_aqi a = VeryBad).
Proof.
  repeat match goal with |- _ /\ _ => split end.
  - unfold health_advice, tier_of_aqi.
    destruct (a <=? 50), (a <=? 100), (a <=? 200), (a <=? 300),
             (b <=? 50), (b <=? 100), (b <=? 200), (b <=? 300);
      split; intro E; first [reflexivity | discriminate E].
  - split; [|intros ->; reflexivity].
    destruct (tier_of_aqi a), (tier_of_aqi b); intro E;
      first [reflexivity | discriminate E].
  - unfold status_css_class, tier_of_aqi.
    destruct (a <=? 50), (a <=? 100), (a <=? 200), (a <=? 300);
      split; intro E; first [reflexivity | discriminate E].
  - unfold status_css_class, tier_of_aqi.
    destruct (a <=? 50), (a <=? 100), (a <=? 200), (a <=? 300);
      split; intro E; first [reflexivity | discriminate E].
  - unfold status_css_class, tier_of_aqi.
    destruct (a <=? 50), (a <=? 100), (a <=? 200), (a <=? 300);
      split; intro E;
      first [ discriminate E
            | destruct E as [E | [E | E]]; discriminate E
            | reflexivity
            | left; reflexivity
            | right; left; reflexivity
            | right; right; reflexivity ].
Qed.

(** ** The samplers of the Windows branch *)

Module WindowsFacts.
Import Windows.

Lemma land_high_low high low :
  0 <= low < 2 ^ 32 -> Z.land (high * 2 ^ 32) low = 0.
Proof.
  intro Hlow. apply Z.bits_inj'. intros n Hn.
  rewrite Z.land_spec, Z.bits_0.
  destruct (Z.lt_ge_cases n 32) as [Hlt | Hge].
  - rewrite Z.mul_pow2_bits_low by lia. reflexivity.
  - rewrite <- (Z.mod_small low (2 ^ 32)) by exact Hlow.
    rewrite Z.mod_pow2_bits_high by lia. apply andb_false_r.
Qed.

Lemma lor_high_low high low :
  0 <= low < 2 ^ 32 -> Z.lor (high * 2 ^ 32) low = high * 2 ^ 32 + low.
Proof.
  intro Hlow. pose proof (land_high_low high low Hlow) as Hland.
  rewrite <- Z.lxor_lor by exact Hland.
  symmetry. apply Z.add_nocarry_lxor. exact Hland.
Qed.

(** X14. For a FILETIME of two DWORDs, [FileTimeToInt64] is the 64-bit
    number [high * 2^32 + low]; the two halves are read back from it by a
    shift and a mask, so distinct times have distinct numbers. *)
Theorem FileTimeToInt64_value (ft : FILETIME) :
  valid_time ft ->
  FileTimeToInt64 ft = dwHighDateTime ft * 2 ^ 32 + dwLowDateTime ft /\
  0 <= FileTimeToInt64 ft < 2 ^ 64 /\
  Z.shiftr (FileTimeToInt64 ft) 32 = dwHighDateTime ft /\
  Z.land (FileTimeToInt64 ft) (2 ^ 32 - 1) = dwLowDateTime ft /\
  (forall ft', valid_time ft' ->
     FileTimeToInt64 ft' = FileTimeToInt64 ft -> ft' = ft).
Proof.
  assert (Hvalue : forall t, valid_time t ->
            FileTimeToInt64 t = dwHighDateTime t * 2 ^ 32 + dwLowDateTime t).
  { intros t [Hlow Hhigh]. unfold FileTimeToInt64, uint64.
    rewrite Z.shiftl_mul_pow2 by lia.
    rewrite Z.mod_small by lia. apply lor_high_low, Hlow. }
  intros [Hlow Hhigh]. rewrite (Hvalue ft (conj Hlow Hhigh)).
  repeat match goal with |- _ /\ _ => split end; try lia.
  - rewrite Z.shiftr_div_pow2 by lia.
    rewrite Z.div_add_l by lia. rewrite Z.div_small by lia. lia.
  - change (2 ^ 32 - 1) with (Z.ones 32). rewrite Z.land_ones by lia.
    rewrite Z.add_comm, Z.mod_add by lia. apply Z.mod_small, Hlow.
  - intros ft' [Hlow' Hhigh'] Heq.
    rewrite (Hvalue ft' (conj Hlow' Hhigh')) in Heq.
    destruct ft as [low high], ft' as [low' high']. cbn in *.
    assert (high' = high) by nia. subst high'.
    assert (low' = low) by lia. subst low'. reflexivity.
Qed.

Lemma FileTimeToInt64_value_witness :
  FileTimeToInt64 (mkFILETIME 5 3) = 3 * 2 ^ 32 + 5.
Proof.
  assert (Hvalid : valid_time (mkFILETIME 5 3)) by (unfold valid_time; cbn; lia).
  exact (proj1 (FileTimeToInt64_value (mkFILETIME 5 3) Hvalid)).
Defined.

Lemma of_uint64_exact z : (of_uint64 (F:=Q) z == inject_Z z)%Q.
Proof.
  unfold of_uint64. exact_ops.
  rewrite <- inject_Z_mult, <- inject_Z_plus.
  rewrite (Z.div_mod z (2 ^ 32)) at 3 by lia.
  rewrite (Z.mul_comm (2 ^ 32)). reflexivity.
Qed.

Example of_uint64_binary64 :
  of_uint64 (F:=float) (2 ^ 64 - 1) = 0x1p+64%float /\
  of_uint64 (F:=float) (2 ^ 53 + 1) = 0x1p+53%float /\
  of_uint64 (F:=float) 1000 = 1000%float.
Proof. vm_compute. repeat split. Qed.

(** X15. The CPU load on Windows.  When [GetSystemTimes] fails the load is
    0 and the times kept from the call before are not touched.  Otherwise
    the new times are kept, and with [idle], [kernel] and [user] the time
    spent since the call before: the load is 0 when [kernel + user] is 0;
    when the idle time is part of [kernel + user], as it is on Windows, the
    load is [(kernel + user - idle) * 100 / (kernel + user)], between 0 and
    100. *)
Theorem windows_cpu_load
    (st : CpuStatics) (idleTime kernelTime userTime : FILETIME) :
  let idle :=
    uint64 (FileTimeToInt64 idleTime - FileTimeToInt64 (preIdleTime st)) in
  let kernel :=
    uint64 (FileTimeToInt64 kernelTime - FileTimeToInt64 (preKernelTime st)) in
  let user :=
    uint64 (FileTimeToInt64 userTime - FileTimeToInt64 (preUserTime st)) in
  let load :=
    GetCPULoad (F:=Q) (Some (idleTime, kernelTime, userTime)) st in
  GetCPULoad (F:=Q) None st = (0%Q, st) /\
  snd load = mkCpuStatics idleTime kernelTime userTime /\
  (uint64 (kernel + user) = 0 -> fst load = 0%Q) /\
  (0 < kernel + user < 2 ^ 64 -> idle <= kernel + user ->
   (fst load == inject_Z ((kernel + user - idle) * 100) / inject_Z (kernel + user))%Q /\
   (0 <= fst load <= 100)%Q).
Proof.
  intros idle kernel user load.
  split; [reflexivity|].
  unfold load, GetCPULoad. fold idle kernel user.
  destruct (Z.eqb_spec (uint64 (kernel + user)) 0) as [Hzero | Hpos].
  - cbn [fst snd]. split; [reflexivity|]. split; [reflexivity|].
    intros Hrange Hidle. unfold uint64 in Hzero.
    rewrite Z.mod_small in Hzero by lia. lia.
  - cbn [fst snd]. split; [reflexivity|]. split; [intro; contradiction|].
    intros Hrange Hidle.
    assert (Hidle0 : 0 <= idle)
      by (unfold idle, uint64; apply Z.mod_pos_bound; lia).
    assert (Hsum : uint64 (kernel + user) = kernel + user)
      by (unfold uint64; apply Z.mod_small; lia).
    assert (Hbusy : uint64 (kernel + user - idle) = kernel + user - idle)
      by (unfold uint64; apply Z.mod_small; lia).
    rewrite Hsum, Hbusy. exact_ops. rewrite !of_uint64_exact.
    set (busy := kernel + user - idle) in *.
    set (total := kernel + user) in *.
    assert (Htotal : (0 < inject_Z total)%Q)
      by (change 0%Q with (inject_Z 0); rewrite <- Zlt_Qlt; lia).
    assert (Hb0 : (0 <= inject_Z busy)%Q)
      by (change 0%Q with (inject_Z 0); rewrite <- Zle_Qle; lia).
    assert (Hb1 : (inject_Z busy <= inject_Z total)%Q)
      by (rewrite <- Zle_Qle; lia).
    assert (Heq : (inject_Z busy * inject_Z 100 / inject_Z total
                   == inject_Z (busy * 100) / inject_Z total)%Q)
      by (rewrite inject_Z_mult; reflexivity).
    split; [exact Heq|].
    change (inject_Z 100) with 100%Q. split.
    + apply Qle_shift_div_l; [exact Htotal | lra].
    + apply Qle_shift_div_r; [exact Htotal | lra].
Qed.

Lemma windows_cpu_load_witness :
  (fst (GetCPULoad (F:=Q) (Some (mkFILETIME 750 0, mkFILETIME 800 0,
                                 mkFILETIME 200 0))
                   initial_cpu_statics) <= 100)%Q.
Proof.
  destruct (windows_cpu_load initial_cpu_statics (mkFILETIME 750 0)
              (mkFILETIME 800 0) (mkFILETIME 200 0))
    as (_ & _ & _ & Hload).
  match type of Hload with
  | ?A -> ?B -> _ =>
      assert (Hsum : A) by (vm_compute; split; reflexivity);
      assert (Hidle : B) by (vm_compute; discriminate)
  end.
  exact (proj2 (proj2 (Hload Hsum Hidle))).
Defined.

Example windows_cpu_load_binary64 :
  fst (GetCPULoad (F:=float) (Some (mkFILETIME 750 0, mkFILETIME 800 0,
                                    mkFILETIME 200 0))
                  initial_cpu_statics) = 25%float.
Proof. vm_compute. reflexivity. Qed.

Lemma sum_octets_from loopback table : forall a b,
  fold_left
    (fun totals row =>
       if dwType row =? loopback then totals
       else (uint32 (fst totals + dwInOctets row),
             uint32 (snd totals + dwOutOctets row)))
    table (uint32 a, uint32 b)
  = (uint32 (a + octets loopback dwInOctets table),
     uint32 (b + octets loopback dwOutOctets table)).
Proof.
  unfold octets.
  induction table as [|row rest IH]; intros a b; cbn [fold_left filter].
  - cbn [map fold_right]. now rewrite !Z.add_0_r.
  - destruct (dwType row =? loopback); cbn [negb].
    + apply IH.
    + cbn [fst snd map fold_right].
      replace (uint32 (uint32 a + dwInOctets row))
        with (uint32 (a + dwInOctets row))
        by (unfold uint32; now rewrite Zplus_mod_idemp_l).
      replace (uint32 (uint32 b + dwOutOctets row))
        with (uint32 (b + dwOutOctets row))
        by (unfold uint32; now rewrite Zplus_mod_idemp_l).
      rewrite IH. f_equal; f_equal; lia.
Qed.

Lemma sum_octets_spec loopback table :
  sum_octets loopback table =
  (uint32 (octets loopback dwInOctets table),
   uint32 (octets loopback dwOutOctets table)).
Proof.
  unfold sum_octets. exact (sum_octets_from loopback table 0 0).
Qed.

(** A counter that went down is taken to have wrapped once; the
    difference is one short of the one modulo [2^32]. *)
Lemma unwrap_diff_spec total last :
  0 <= total < 2 ^ 32 -> 0 <= last < 2 ^ 32 ->
  unwrap_diff (total - last) =
    (if last <=? total then total - last else uint32 (total - last) - 1) /\
  0 <= unwrap_diff (total - last) < 2 ^ 32.
Proof.
  intros Ht Hl. unfold unwrap_diff.
  destruct (Z.ltb_spec (total - last) 0), (Z.leb_spec last total); try lia.
  assert (Hmod : uint32 (total - last) = total - last + 2 ^ 32)
    by (unfold uint32, UINT_MODULUS; symmetry;
        apply Z.mod_unique with (q := -1); lia).
  rewrite Hmod. lia.
Qed.

(** X16. The network rate on Windows.  When a call of [GetIfTable] fails the
    rate is 0 and the counters kept are not touched.  Otherwise the
    counters kept become the sums, as DWORDs, of the octets of the
    interfaces that are not loopbacks, and the tick count.  The rate is 0
    at the first call (no tick count kept) and when the tick count has not
    moved; it is never negative; and when time has passed it is the bytes
    of both directions, times 8, over [1024 * 1024], over the seconds
    passed, where the bytes of a direction are the difference of the sums,
    or one less than the difference modulo [2^32] when the sum went down. *)
Theorem windows_network_usage
    (loopback : Z) (table : list MIB_IFROW) (GetTickCount : Z)
    (st : NetStatics) :
  valid_statics st ->
  let total_in := uint32 (octets loopback dwInOctets table) in
  let total_out := uint32 (octets loopback dwOutOctets table) in
  let usage :=
    GetNetworkUsage (F:=Q) loopback (TableFilled table) GetTickCount st in
  let bytes total last :=
    if last <=? total then total - last else uint32 (total - last) - 1 in
  let ticks := uint32 (GetTickCount - last_time st) in
  GetNetworkUsage (F:=Q) loopback SizeQueryFailed GetTickCount st = (0%Q, st) /\
  GetNetworkUsage (F:=Q) loopback TableQueryFailed GetTickCount st = (0%Q, st) /\
  snd usage = mkNetStatics total_in total_out GetTickCount /\
  valid_statics (snd usage) /\
  (last_time st = 0 -> fst usage = 0%Q) /\
  (ticks = 0 -> fst usage = 0%Q) /\
  (0 <= fst usage)%Q /\
  (last_time st <> 0 -> 0 < ticks ->
   (fst usage ==
    inject_Z ((bytes total_in (last_bytes_in st)
               + bytes total_out (last_bytes_out st)) * 8)
    / 1048576 / (inject_Z ticks / 1000))%Q).
Proof.
  intros [Hin Hout] total_in total_out usage bytes ticks.
  assert (Htin : 0 <= total_in < 2 ^ 32) by apply uint32_range.
  assert (Htout : 0 <= total_out < 2 ^ 32) by apply uint32_range.
  assert (Hticks : 0 <= ticks < 2 ^ 32) by apply uint32_range.
  destruct (unwrap_diff_spec total_in (last_bytes_in st) Htin Hin)
    as [Edin Hdin].
  destruct (unwrap_diff_spec total_out (last_bytes_out st) Htout Hout)
    as [Edout Hdout].
  assert (Husage : usage =
    ((if last_time st =? 0 then 0%Q
      else if Exact.lt 0 (inject_Z ticks / inject_Z 1000)
           then (inject_Z (unwrap_diff (total_in - last_bytes_in st)
                           + unwrap_diff (total_out - last_bytes_out st))
                 * inject_Z 8 / (inject_Z 1024 * inject_Z 1024)
                 / (inject_Z ticks / inject_Z 1000))%Q
           else 0%Q),
     mkNetStatics total_in total_out GetTickCount)).
  { unfold usage, GetNetworkUsage. rewrite sum_octets_spec.
    fold total_in total_out. reflexivity. }
  assert (Hsecs : 0 < ticks -> (0 < inject_Z ticks / inject_Z 1000)%Q).
  { intro Hpos. apply Qlt_shift_div_l; [reflexivity|].
    rewrite Qmult_0_l. change 0%Q with (inject_Z 0).
    rewrite <- Zlt_Qlt. exact Hpos. }
  assert (Hrate : 0 < ticks ->
    (0 <= inject_Z (unwrap_diff (total_in - last_bytes_in st)
                    + unwrap_diff (total_out - last_bytes_out st))
          * inject_Z 8 / (inject_Z 1024 * inject_Z 1024)
          / (inject_Z ticks / inject_Z 1000))%Q).
  { intro Hpos. apply Qle_shift_div_l; [apply Hsecs, Hpos|].
    rewrite Qmult_0_l. apply Qle_shift_div_l; [reflexivity|].
    rewrite Qmult_0_l. apply Qmult_le_0_compat; [|discriminate].
    change 0%Q with (inject_Z 0). rewrite <- Zle_Qle. lia. }
  split; [reflexivity|]. split; [reflexivity|].
  rewrite Husage. cbn [fst snd].
  split; [reflexivity|].
  split; [split; cbn [last_bytes_in last_bytes_out]; assumption|].
  split; [intros ->; reflexivity|].
  split; [|split].
  - intro Hzero. destruct (last_time st =? 0); [reflexivity|].
    rewrite Hzero. reflexivity.
  - destruct (last_time st =? 0); [apply Qle_refl|].
    destruct (Exact.lt 0 (inject_Z ticks / inject_Z 1000)) eqn:E;
      [|apply Qle_refl].
    apply Hrate. apply lt_spec in E.
    destruct (Z.eq_dec ticks 0) as [Hz | Hnz]; [|lia].
    rewrite Hz in E. vm_compute in E. discriminate E.
  - intros Hlast Hpos.
    destruct (Z.eqb_spec (last_time st) 0) as [Hz | _]; [contradiction|].
    pose proof (Hsecs Hpos) as Hs. apply lt_spec in Hs. rewrite Hs.
    rewrite Edin, Edout. fold (bytes total_in (last_bytes_in st)).
    fold (bytes total_out (last_bytes_out st)).
    rewrite inject_Z_mult. reflexivity.
Qed.

Lemma windows_network_usage_witness :
  (0 <= fst (GetNetworkUsage (F:=Q) 24
               (TableFilled [mkMIB_IFROW 6 1000 500; mkMIB_IFROW 24 77 77])
               2000 (mkNetStatics 4294967000 100 1000)))%Q.
Proof.
  assert (Hvalid : valid_statics (mkNetStatics 4294967000 100 1000))
    by (unfold valid_statics; cbn; lia).
  exact (proj1 (proj2 (proj2 (proj2 (proj2 (proj2 (proj2
           (windows_network_usage 24
              [mkMIB_IFROW 6 1000 500; mkMIB_IFROW 24 77 77] 2000
              (mkNetStatics 4294967000 100 1000) Hvalid)))))))).
Defined.

Example windows_network_usage_binary64 :
  GetNetworkUsage (F:=float) 24
    (TableFilled [mkMIB_IFROW 6 1000 500; mkMIB_IFROW 24 77 77])
    2000 (mkNetStatics 4294967000 100 1000)
  = (0x1.a7cp-7%float, mkNetStatics 1000 500 2000).
Proof. vm_compute. reflexivity. Qed.

End WindowsFacts.

(** ** The grid of a chart *)

Section GridExact.

Variable cairo_text_extents : bool -> Z -> string -> Q * Q.

(** X17. Each of the five lines of the grid is a horizontal stroke from
    the left margin to the right margin of the plot, line [i] at the
    height [i] quarters of the plot above its bottom edge: line 0 lies on
    the bottom edge, line 4 on the top edge, and on a canvas at least 40
    high all are on the plot, as the line of the chart is. *)
Theorem grid_lines_on_plot (width height max_val i : Z) :
  0 <= i <= 4 ->
  let ops := grid_line cairo_text_extents width height max_val i in
  exists y label_x label_y,
    path_points ops = [(margin_x, y); ((margin_x + graph_w width)%D, y);
                       (label_x, label_y)] /\
    (margin_x (F:=Q) == 40)%Q /\
    (margin_x + graph_w width == inject_Z (width - 20))%Q /\
    (y == inject_Z (height - 20)
          - inject_Z i * (inject_Z (height - 40) / 4))%Q /\
    (i = 0 -> (y == inject_Z (height - 20))%Q) /\
    (i = 4 -> (y == 20)%Q) /\
    (40 <= height -> (20 <= y <= inject_Z (height - 20))%Q).
Proof.
  intros Hi ops. unfold ops, grid_line.
  destruct (cairo_text_extents false 10 _) as [ext_width ext_height].
  eexists. eexists. eexists. split; [reflexivity|].
  unfold graph_w, graph_h, margin_x. unfold margin_y. exact_ops.
  unfold Z.sub. rewrite !inject_Z_plus, !inject_Z_opp.
  change (inject_Z 40) with 40%Q. change (inject_Z 20) with 20%Q.
  change (inject_Z 2) with 2%Q. change (inject_Z 4) with 4%Q.
  assert (Hy : (20 + (inject_Z height - 2 * 20)
                - inject_Z i * (inject_Z height - 2 * 20) / 4
                == inject_Z height + - (20)
                   - inject_Z i * ((inject_Z height + - (40)) / 4))%Q)
    by field.
  split; [reflexivity|]. split; [ring|]. split; [exact Hy|].
  split; [|split].
  - intros ->. rewrite Hy. change (inject_Z 0) with 0%Q. field.
  - intros ->. rewrite Hy. change (inject_Z 4) with 4%Q. field.
  - intro Hheight. rewrite Hy.
    assert (H0 : (0 <= inject_Z i)%Q)
      by (change 0%Q with (inject_Z 0); rewrite <- Zle_Qle; lia).
    assert (H4 : (inject_Z i <= 4)%Q)
      by (change 4%Q with (inject_Z 4); rewrite <- Zle_Qle; lia).
    rewrite Zle_Qle in Hheight. change (inject_Z 40) with 40%Q in Hheight.
    set (q := ((inject_Z height + - (40)) / 4)%Q).
    assert (Hq : (q * 4 == inject_Z height + - (40))%Q) by (unfold q; field).
    assert (Hq0 : (0 <= q)%Q) by (apply Qle_shift_div_l; [reflexivity | lra]).
    assert (Hp0 : (0 <= inject_Z i * q)%Q)
      by (apply Qmult_le_0_compat; assumption).
    assert (Hp4 : (inject_Z i * q <= 4 * q)%Q)
      by (apply Qmult_le_compat_r; assumption).
    set (p := (inject_Z i * q)%Q) in *. split; lra.
Qed.

End GridExact.

Lemma grid_lines_on_plot_witness :
  exists y label_x label_y,
    path_points (grid_line (F:=Q) fixed_extents 244 100 100 4)
    = [(margin_x, y); ((margin_x + graph_w 244)%D, y); (label_x, label_y)] /\
    (y == 20)%Q.
Proof.
  destruct (grid_lines_on_plot fixed_extents 244 100 100 4 ltac:(lia))
    as (y & label_x & label_y & Hpoints & _ & _ & _ & _ & Htop & _).
  exists y, label_x, label_y. split; [exact Hpoints | apply Htop; reflexivity].
Defined.

(** ** The pointer position kept *)

Lemma trunc_floor (x : Q) : (0 <= x)%Q -> trunc (F:=Q) x = Qfloor x.
Proof.
  intro Hx. cbn [trunc exact]. unfold Exact.trunc, Qfloor.
  destruct x as [n d]. cbn [Qnum Qden].
  apply Z.quot_div_nonneg; [|lia].
  unfold Qle in Hx. cbn in Hx. lia.
Qed.

(** X18. The motion handler keeps the abscissa of the pointer cut to an
    integer and marks the area hovered, leaving its other data alone: for a
    pointer at [x], not negative and below [2^31], the position the
    renderer reads back is the integer part of [x], at most one unit to the
    left of the pointer. *)
Theorem pointer_position_kept (area : Widget) (x y : Q) :
  (0 <= x)%Q -> (x < inject_Z (2 ^ 31))%Q ->
  let hovered := on_chart_motion area x y in
  hover_mouse_x hovered = Qfloor x /\
  (inject_Z (hover_mouse_x hovered) <= x)%Q /\
  (x < inject_Z (hover_mouse_x hovered) + 1)%Q /\
  is_hovering hovered = true /\
  city_name hovered = city_name area /\
  is_live hovered = is_live area /\
  live_type hovered = live_type area.
Proof.
  intros Hx Hmax hovered.
  assert (Hfloor : hover_mouse_x hovered = Qfloor x).
  { unfold hovered, hover_mouse_x, on_chart_motion. cbn [hover_x].
    rewrite (trunc_floor x Hx).
    assert (H0 : 0 <= Qfloor x).
    { change 0 with (Qfloor 0). apply Qfloor_resp_le, Hx. }
    assert (H1 : Qfloor x < 2 ^ 31).
    { rewrite Zlt_Qlt. eapply Qle_lt_trans; [apply Qfloor_le | exact Hmax]. }
    rewrite uint32_small by (unfold UINT_MODULUS; lia).
    apply int_of_uint_small. unfold INT_MAX. lia. }
  rewrite Hfloor. split; [reflexivity|].
  split; [apply Qfloor_le|].
  split; [|repeat split].
  pose proof (Qlt_floor x) as Hlt. rewrite inject_Z_plus in Hlt. exact Hlt.
Qed.

Lemma pointer_position_kept_witness :
  hover_mouse_x (on_chart_motion (F:=Q) selection_chart (97 # 2) 10%Q) = 48.
Proof.
  assert (H0 : (0 <= 97 # 2)%Q) by discriminate.
  assert (H1 : (97 # 2 < inject_Z (2 ^ 31))%Q) by reflexivity.
  exact (proj1 (pointer_position_kept selection_chart (97 # 2) 10%Q H0 H1)).
Defined.
